(** * Meeting Summarizer: upload validation and result normalisation

    A shallow embedding of the upload pipeline of the Meeting Summarizer.

    - [Js]: the JavaScript values and the [String]/[Array] primitives that
      [FrontEnd/src/App.jsx] calls.
    - [App]: the React component's state and its two event handlers,
      [handleFileChange] and [handleUpload], as state-passing programs that
      also log every request handed to [axios.post].
    - [Backend]: the Flask service ([backend/app.py]), whose source is not
      among the files at hand; the definitions of that module follow the
      written specification and say so.

    Definitions come first, theorems afterwards. *)

From Stdlib Require Import ZArith Ascii String.
From stdpp Require Import gmap strings list.

Set Warnings "-register-all".
Local Open Scope string_scope.
Local Open Scope Z_scope.

(* ===================================================================== *)
(** ** JavaScript values and primitives *)
(* ===================================================================== *)

Module Js.

(** JSON-shaped JavaScript values.  Numbers are kept as integers: the only
    numbers the pipeline looks at are counts and status codes. *)
Inductive JsValue : Type :=
| JUndefined
| JNull
| JBool (b : bool)
| JNum (z : Z)
| JStr (s : string)
| JArr (xs : list JsValue)
| JObj (fields : gmap string JsValue).

(** [ToBoolean]: what [if (v)], [!v] and [v || w] test. *)
Definition truthy (v : JsValue) : bool :=
  match v with
  | JUndefined | JNull => false
  | JBool b => b
  | JNum z => negb (z =? 0)
  | JStr s => negb (String.eqb s EmptyString)
  | JArr _ | JObj _ => true
  end.

(** [a || b] *)
Definition or_else (a b : JsValue) : JsValue := if truthy a then a else b.

(** [v.k] for a key that is neither an own nor an inherited property of
    primitives and arrays (the handlers read [success], [error], [data] and
    [response] only).  [None] is the [TypeError] raised when [v] is
    [undefined] or [null]. *)
Definition get_prop (v : JsValue) (k : string) : option JsValue :=
  match v with
  | JUndefined | JNull => None
  | JObj fields => Some (default JUndefined (fields !! k))
  | _ => Some JUndefined
  end.

(** [v?.k]: optional chaining never throws. *)
Definition get_prop_opt (v : JsValue) (k : string) : JsValue :=
  default JUndefined (get_prop v k).

(** [String.prototype.toLowerCase] on one code unit.  Strings are byte
    strings here and only [A]..[Z] are folded.  (The Unicode mapping sends
    no other character to ['.'] or to a letter or digit of [mp3], [wav],
    [m4a], [flac], so the extension test reads the same.) *)
Definition lower_char (c : ascii) : ascii :=
  let n := N_of_ascii c in
  if ((65 <=? n) && (n <=? 90))%N then ascii_of_N (n + 32) else c.

Fixpoint toLowerCase (s : string) : string :=
  match s with
  | EmptyString => EmptyString
  | String c s' => String (lower_char c) (toLowerCase s')
  end.

(** [lastIndexOf] scanning the suffix [s] that starts at index [i] of the
    whole string: the greatest index at which [pat] occurs, else [-1]. *)
Fixpoint lastIndexOf_from (pat s : string) (i : Z) : Z :=
  match s with
  | EmptyString => if String.prefix pat EmptyString then i else -1
  | String _ s' =>
      let later := lastIndexOf_from pat s' (i + 1) in
      if 0 <=? later then later
      else if String.prefix pat s then i else -1
  end.

(** [s.lastIndexOf(pat)] *)
Definition lastIndexOf (pat s : string) : Z := lastIndexOf_from pat s 0.

Fixpoint string_drop (n : nat) (s : string) : string :=
  match n, s with
  | O, _ => s
  | S _, EmptyString => EmptyString
  | S n', String _ s' => string_drop n' s'
  end.

(** [s.substring(start)]: a negative [start] is taken as [0], one beyond the
    end as the length. *)
Definition substring (start : Z) (s : string) : string :=
  let len := Z.of_nat (String.length s) in
  let from := Z.min (Z.max start 0) len in
  string_drop (Z.to_nat from) s.

(** [xs.includes(x)] on an array of strings. *)
Fixpoint includes (x : string) (xs : list string) : bool :=
  match xs with
  | [] => false
  | y :: ys => if String.eqb y x then true else includes x ys
  end.

End Js.

(** Reason codes of a rejected upload, shared by the client-side checks and
    the service. *)
Inductive RejectReason : Type := UnsupportedFormat | TooLarge | NoFileProvided.

(** An HTTP response: status code and (parsed) body. *)
Record Response : Type := mkResponse { status : Z; data : Js.JsValue }.

(* ===================================================================== *)
(** ** The React component: state and handlers ([FrontEnd/src/App.jsx]) *)
(* ===================================================================== *)

Module App.
Import Js.

(** A browser [File]: the two properties the handlers read. *)
Record File : Type := mkFile { name : string; size : Z }.

(** The four [useState] cells. *)
Record AppState : Type := mkState {
  file : option File;      (* null | File *)
  loading : bool;
  result : JsValue;        (* null | response.data *)
  error : JsValue          (* '' | message *)
}.

(** [useState(null)], [useState(false)], [useState(null)], [useState('')] *)
Definition initial : AppState :=
  {| file := None; loading := false; result := JNull; error := JStr EmptyString |}.

(** What [axios.post] is given. *)
Record Request : Type := mkRequest {
  url : string;
  field : string;          (* formData.append(field, payload) *)
  payload : File;
  timeout : Z
}.

(** The component's state together with the requests sent so far. *)
Record World : Type := mkWorld { ui : AppState; sent : list Request }.

(** Handlers are state-passing programs over [World]. *)
Definition Handler (A : Type) : Type := World -> A * World.

#[global] Instance handler_ret : MRet Handler := fun A a w => (a, w).
#[global] Instance handler_bind : MBind Handler :=
  fun A B k m w => let (a, w') := m w in k a w'.

Definition modify_ui (f : AppState -> AppState) : Handler unit :=
  fun w => (tt, {| ui := f (ui w); sent := sent w |}).

Definition getFile : Handler (option File) := fun w => (file (ui w), w).

Definition setFile (v : option File) : Handler unit :=
  modify_ui (fun s => {| file := v; loading := loading s;
                         result := result s; error := error s |}).
Definition setLoading (v : bool) : Handler unit :=
  modify_ui (fun s => {| file := file s; loading := v;
                         result := result s; error := error s |}).
Definition setResult (v : JsValue) : Handler unit :=
  modify_ui (fun s => {| file := file s; loading := loading s;
                         result := v; error := error s |}).
Definition setError (v : JsValue) : Handler unit :=
  modify_ui (fun s => {| file := file s; loading := loading s;
                         result := result s; error := v |}).

(** The messages the handlers pass to [setError]. *)
Definition msg_unsupported : string :=
  "Please select MP3, WAV, M4A, or FLAC files only".
Definition msg_too_large : string := "File too large. Maximum size is 25MB".
Definition msg_no_file : string := "Please select an audio file".
Definition msg_processing_failed : string := "Processing failed".
Definition msg_error_occurred : string := "An error occurred during processing".

Definition allowedExtensions : list string := [".mp3"; ".wav"; ".m4a"; ".flac"].

(** [fileName.substring(fileName.lastIndexOf('.'))] on the lowercased name. *)
Definition fileExtension (f : File) : string :=
  let fileName := toLowerCase (name f) in
  substring (lastIndexOf "." fileName) fileName.

Definition extension_ok (f : File) : bool :=
  includes (fileExtension f) allowedExtensions.

Definition max_size : Z := 25 * 1024 * 1024.

(** [handleFileChange(e)], with [files] standing for [e.target.files]. *)
Definition handleFileChange (files : list File) : Handler unit :=
  match files !! 0%nat with
  | Some selectedFile =>
      if negb (extension_ok selectedFile) then
        setError (JStr msg_unsupported) ;; setFile None
      else if size selectedFile >? max_size then
        setError (JStr msg_too_large) ;; setFile None
      else
        setFile (Some selectedFile) ;; setError (JStr EmptyString)
  | None => mret tt
  end.

(** What the [try] block can throw: the rejection of the [axios.post]
    promise ([err.response] is undefined when no response arrived), or the
    [TypeError] of reading a property of [undefined]/[null]. *)
Inductive Thrown : Type :=
| AxiosError (response : option Response)
| TypeError.

(** How the awaited promise settles. *)
Inductive Settled : Type :=
| Fulfilled (response : Response)
| Failed (err : Thrown).

(** axios' [settle] with its default [validateStatus]: a response fulfils
    the promise when its status is falsy ([!response.status], that is 0) or
    2xx; any other status, or no response at all (network failure,
    timeout), rejects it. *)
Definition axios_settle (r : option Response) : Settled :=
  match r with
  | Some resp =>
      if (status resp =? 0) || ((200 <=? status resp) && (status resp <? 300))
      then Fulfilled resp else Failed (AxiosError (Some resp))
  | None => Failed (AxiosError None)
  end.

(** [await axios.post('/api/upload', formData, {..., timeout: 120000})]:
    the request is recorded and the promise settles as the environment
    decides ([reply]). *)
Definition axios_post (req : Request) (reply : Settled) : Handler Settled :=
  fun w => (reply, {| ui := ui w; sent := sent w ++ [req] |}).

(** [err.response?.data?.error] *)
Definition error_of_thrown (err : Thrown) : JsValue :=
  match err with
  | AxiosError (Some resp) => get_prop_opt (data resp) "error"
  | AxiosError None => JUndefined
  | TypeError => JUndefined
  end.

(** The body of the [try] block after the [await]; [inr err] is a throw. *)
Definition on_response (response : Response) : Handler (unit + Thrown) :=
  match get_prop (data response) "success" with
  | None => mret (inr TypeError)
  | Some success =>
      if truthy success then
        setResult (data response) ;; mret (inl tt)
      else
        match get_prop (data response) "error" with
        | None => mret (inr TypeError)
        | Some e =>
            setError (or_else e (JStr msg_processing_failed)) ;; mret (inl tt)
        end
  end.

(** The multipart form [handleUpload] posts for the held file. *)
Definition upload_request (f : File) : Request :=
  {| url := "/api/upload"; field := "audio"; payload := f; timeout := 120000 |}.

(** The [catch] block. *)
Definition on_catch (err : Thrown) : Handler unit :=
  setError (or_else (error_of_thrown err) (JStr msg_error_occurred)).

(** [handleUpload()]; [reply] is how the request settles if one is sent. *)
Definition handleUpload (reply : Settled) : Handler unit :=
  f ← getFile;
  match f with
  | None => setError (JStr msg_no_file)
  | Some file =>
      setLoading true ;;
      setError (JStr EmptyString) ;;
      setResult JNull ;;
      settled ← axios_post (upload_request file) reply;
      outcome ← match settled with
                | Fulfilled response => on_response response
                | Failed err => mret (inr err)
                end;
      match outcome with
      | inl _ => mret tt
      | inr err => on_catch err
      end ;;
      setLoading false
  end.

(** User interaction: a change of the file input, or a press on the button
    (with the settlement of the request it may trigger).  The handler of an
    event runs to its end, the [await] included, before the next event. *)
Inductive Event : Type :=
| FileChange (files : list File)
| Upload (reply : Settled).

Definition handle (e : Event) : Handler unit :=
  match e with
  | FileChange files => handleFileChange files
  | Upload reply => handleUpload reply
  end.

Definition step (w : World) (e : Event) : World := snd (handle e w).

(** The world after a sequence of events. *)
Definition run (es : list Event) (w : World) : World := fold_left step es w.

Definition start : World := {| ui := initial; sent := [] |}.

(** What the render function shows: the error box ([error && ...]) and the
    results section ([result && ...]). *)
Definition shows_error (s : AppState) : bool := truthy (error s).
Definition shows_result (s : AppState) : bool := truthy (result s).

(** The reason code a [setError] message stands for. *)
Definition message_of (r : RejectReason) : string :=
  match r with
  | UnsupportedFormat => msg_unsupported
  | TooLarge => msg_too_large
  | NoFileProvided => msg_no_file
  end.

(** A handler run from [before] to [after] refused the file for reason [r]:
    the message is up, no file is held, and nothing went out. *)
Definition rejected_with (r : RejectReason) (before after : World) : Prop :=
  error (ui after) = JStr (message_of r) /\
  file (ui after) = None /\
  sent after = sent before.

(** A handler run from [before] to [after] took [f] as the selected file. *)
Definition accepted (f : File) (before after : World) : Prop :=
  file (ui after) = Some f /\
  error (ui after) = JStr EmptyString /\
  sent after = sent before.

(** Both checks of [handleFileChange] let [f] through. *)
Definition passes_checks (f : File) : bool :=
  extension_ok f && negb (size f >? max_size).

(** The held file and every file sent so far went through both checks. *)
Definition checked (w : World) : Prop :=
  (forall f, file (ui w) = Some f -> passes_checks f = true) /\
  Forall (fun r => passes_checks (payload r) = true) (sent w).

(** The filename contains a ['.']. *)
Fixpoint has_dot (s : string) : bool :=
  match s with
  | EmptyString => false
  | String c s' => Ascii.eqb c "." || has_dot s'
  end.

End App.

(* ===================================================================== *)
(** ** The service ([backend/app.py], modelled from the specification) *)
(* ===================================================================== *)

Module Backend.
Import Js.

(** *** Data model *)

(** Modelled from the spec: an element of [actionItems],
    [{task, owner, deadline, priority}]. *)
Record ActionItem : Type := mkActionItem {
  task : string; owner : string; deadline : string; priority : string
}.

(** Modelled from the spec: [meetingMetrics],
    [{totalDecisions, totalActionItems, keyTopics}]. *)
Record MeetingMetrics : Type := mkMetrics {
  totalDecisions : nat;
  totalActionItems : nat;
  keyTopics : list string
}.

Module Summary.
(** Modelled from the spec: the [summary] record of a [SummaryResult]. *)
Record t : Type := mk {
  summary : string;
  keyDecisions : list string;
  actionItems : list ActionItem;
  nextSteps : list string;
  meetingMetrics : MeetingMetrics
}.
End Summary.

(** Modelled from the spec: [SummaryResult], the output contract of
    [backend/app.py]. *)
Record SummaryResult : Type := mkResult {
  transcript : string;
  wordCount : nat;
  summary : Summary.t
}.

(** Modelled from the spec: [UploadRequest], the file part received by
    [backend/app.py]: declared filename, declared content type, and the
    length of the raw bytes (the checks read nothing else of the content). *)
Record Upload : Type := mkUpload {
  filename : string;
  content_type : string;
  byte_length : Z
}.

(** Modelled from the spec: [ValidationVerdict]. *)
Inductive ValidationVerdict : Type :=
| Accepted (sanitized : string) (size : Z)
| Rejected (reason : RejectReason).

(** *** Result Normalizer *)

(** Modelled from the spec: whitespace, for the word count of
    [backend/app.py], "splitting the transcript on whitespace runs and
    counting non-empty tokens". *)
Definition is_space (c : ascii) : bool :=
  let n := N_of_ascii c in ((n =? 32) || ((9 <=? n) && (n <=? 13)))%N.

(** Modelled from the spec: the split of the transcript at every whitespace
    character; a run of whitespace leaves empty tokens. *)
Fixpoint split_whitespace (token s : string) : list string :=
  match s with
  | EmptyString => [token]
  | String c s' =>
      if is_space c then token :: split_whitespace EmptyString s'
      else split_whitespace (token +:+ String c EmptyString) s'
  end.

(** Modelled from the spec: the count of the non-empty tokens. *)
Definition count_words (text : string) : nat :=
  length (filter (fun tok => tok <> EmptyString)
                 (split_whitespace EmptyString text)).

(** Modelled from the spec: the field readers of the Normalizer of
    [backend/app.py], "take the upstream value if present and of the expected
    type; otherwise substitute the documented default".  A sequence is of the
    expected type when it is an array all of whose elements are. *)
Definition field (payload : JsValue) (k : string) : option JsValue :=
  match payload with
  | JObj fields => fields !! k
  | _ => None
  end.

(** Modelled from the spec: the upstream value "if present and of the
    expected type", here a string. *)
Definition string_of (v : JsValue) : option string :=
  match v with JStr s => Some s | _ => None end.

(** Modelled from the spec: a string field, defaulting to the empty
    string. *)
Definition read_string (v : option JsValue) : string :=
  default EmptyString (v ≫= string_of).

(** Modelled from the spec: a sequence of the expected type, an array all of
    whose elements [elem] accepts. *)
Definition array_of {A} (elem : JsValue -> option A) (v : JsValue)
  : option (list A) :=
  match v with JArr xs => mapM elem xs | _ => None end.

(** Modelled from the spec: a sequence-of-strings field, defaulting to the
    empty list. *)
Definition read_strings (v : option JsValue) : list string :=
  default [] (v ≫= array_of string_of).

(** Modelled from the spec: an action item, an object whose four string
    fields are defaulted one by one. *)
Definition action_item_of (v : JsValue) : option ActionItem :=
  match v with
  | JObj _ =>
      Some {| task := read_string (field v "task");
              owner := read_string (field v "owner");
              deadline := read_string (field v "deadline");
              priority := read_string (field v "priority") |}
  | _ => None
  end.

(** Modelled from the spec: the action-items field, defaulting to the empty
    list. *)
Definition read_action_items (v : option JsValue) : list ActionItem :=
  default [] (v ≫= array_of action_item_of).

(** Modelled from the spec: the assembly of the summary record in
    [backend/app.py]; both totals are "independently recomputed as
    length(keyDecisions) and length(actionItems)". *)
Definition assemble (text : string) (decisions : list string)
    (items : list ActionItem) (steps topics : list string) : Summary.t :=
  {| Summary.summary := text;
     Summary.keyDecisions := decisions;
     Summary.actionItems := items;
     Summary.nextSteps := steps;
     Summary.meetingMetrics :=
       {| totalDecisions := length decisions;
          totalActionItems := length items;
          keyTopics := topics |} |}.

(** Modelled from the spec: field-by-field defaulting over the upstream
    object (keys as the service's JSON has them). *)
Definition normalize_fields (payload : JsValue) : Summary.t :=
  let metrics := default JNull (field payload "meeting_metrics") in
  assemble (read_string (field payload "summary"))
           (read_strings (field payload "key_decisions"))
           (read_action_items (field payload "action_items"))
           (read_strings (field payload "next_steps"))
           (read_strings (field metrics "key_topics")).

(** Modelled from the spec: the fallback for a payload that is "not parseable
    as structured data at all": the raw text verbatim, lists empty. *)
Definition fallback (raw : string) : Summary.t := assemble raw [] [] [] [].

Section Normalizer.
(** The JSON reader of the runtime: [None] is its parse error. *)
Variable parse : string -> option JsValue.

(** Modelled from the spec: the Result Normalizer of [backend/app.py], from
    the transcript and the raw text returned by the summarization call. *)
Definition normalize (transcript_text raw : string) : SummaryResult :=
  {| transcript := transcript_text;
     wordCount := count_words transcript_text;
     summary := match parse raw with
                | Some payload => normalize_fields payload
                | None => fallback raw
                end |}.
End Normalizer.

(** *** The response body *)

(** Modelled from the spec: the JSON the service answers with, built from
    objects, counts and string arrays. *)
Definition obj (kvs : list (string * JsValue)) : JsValue :=
  JObj (list_to_map kvs).

(** Modelled from the spec: a count and a sequence of strings in that
    JSON. *)
Definition num (n : nat) : JsValue := JNum (Z.of_nat n).
Definition strings (xs : list string) : JsValue := JArr (JStr <$> xs).

(** Modelled from the spec: the JSON of an action item, with the keys of the
    service's output format. *)
Definition encode_item (a : ActionItem) : JsValue :=
  obj [("task", JStr (task a)); ("owner", JStr (owner a));
       ("deadline", JStr (deadline a)); ("priority", JStr (priority a))].

(** Modelled from the spec: the JSON of [meetingMetrics]. *)
Definition encode_metrics (m : MeetingMetrics) : JsValue :=
  obj [("total_decisions", num (totalDecisions m));
       ("total_action_items", num (totalActionItems m));
       ("key_topics", strings (keyTopics m))].

(** Modelled from the spec: the JSON of the [summary] record. *)
Definition encode_summary (s : Summary.t) : JsValue :=
  obj [("summary", JStr (Summary.summary s));
       ("key_decisions", strings (Summary.keyDecisions s));
       ("action_items", JArr (encode_item <$> Summary.actionItems s));
       ("next_steps", strings (Summary.nextSteps s));
       ("meeting_metrics", encode_metrics (Summary.meetingMetrics s))].

(** Modelled from the spec: the success body of [POST /api/upload],
    [{"success": true, "transcript": ..., "word_count": ..., "summary": ...}]. *)
Definition encode_result (r : SummaryResult) : JsValue :=
  obj [("success", JBool true);
       ("transcript", JStr (transcript r));
       ("word_count", num (wordCount r));
       ("summary", encode_summary (summary r))].

(** Modelled from the spec: the types of the target shape as checks on a
    field that may be absent: a string, a count, a sequence, a sequence of
    strings. *)
Definition is_string (v : option JsValue) : bool :=
  match v with Some (JStr _) => true | _ => false end.
Definition is_count (v : option JsValue) : bool :=
  match v with Some (JNum z) => 0 <=? z | _ => false end.
Definition is_array_of (elem : JsValue -> bool) (v : option JsValue) : bool :=
  match v with Some (JArr xs) => forallb elem xs | _ => false end.
Definition is_strings : option JsValue -> bool :=
  is_array_of (fun x => is_string (Some x)).

(** Modelled from the spec: a structured element, as an action item must
    be. *)
Definition is_object (v : JsValue) : bool :=
  match v with JObj _ => true | _ => false end.

(** Modelled from the spec: field-by-field defaulting of one string field,
    "take the upstream value if present and of the expected type; otherwise
    substitute the documented default", which for a string is the empty
    string. *)
Definition defaulted (upstream : option JsValue) (out : string) : Prop :=
  (is_string upstream = false -> out = EmptyString) /\
  (forall text, upstream = Some (JStr text) -> out = text).

(** Modelled from the spec: an action item of the result against the
    upstream element it comes from, its four string fields defaulted one by
    one. *)
Definition item_defaulted (upstream : JsValue) (a : ActionItem) : Prop :=
  defaulted (field upstream "task") (task a) /\
  defaulted (field upstream "owner") (owner a) /\
  defaulted (field upstream "deadline") (deadline a) /\
  defaulted (field upstream "priority") (priority a).

(** Modelled from the spec: the shape of an action item, of the metrics, of
    the [summary] record and of the whole result, "every field is always
    present with a type-correct value". *)
Definition item_shape (v : JsValue) : bool :=
  is_string (field v "task") && is_string (field v "owner") &&
  is_string (field v "deadline") && is_string (field v "priority").

Definition metrics_shape (v : JsValue) : bool :=
  is_count (field v "total_decisions") &&
  is_count (field v "total_action_items") &&
  is_strings (field v "key_topics").

Definition summary_shape (v : JsValue) : bool :=
  is_string (field v "summary") &&
  is_strings (field v "key_decisions") &&
  is_array_of item_shape (field v "action_items") &&
  is_strings (field v "next_steps") &&
  match field v "meeting_metrics" with
  | Some m => metrics_shape m
  | None => false
  end.

Definition result_shape (v : JsValue) : bool :=
  is_string (field v "transcript") &&
  is_count (field v "word_count") &&
  match field v "summary" with
  | Some s => summary_shape s
  | None => false
  end.

(** *** Upload Gatekeeper *)

(** Modelled from the spec: the extension of the Gatekeeper of
    [backend/app.py], "the substring after the last '.'" of the filename
    (none when the name has no ['.']). *)
Fixpoint after_last_dot (s : string) : option string :=
  match s with
  | EmptyString => None
  | String c s' =>
      match after_last_dot s' with
      | Some e => Some e
      | None => if Ascii.eqb c "." then Some s' else None
      end
  end.

(** Modelled from the spec: the list of [GET /api/supported-formats]. *)
Definition supported_formats : list string := ["mp3"; "wav"; "m4a"; "flac"].

(** Modelled from the spec: the extension check, case-insensitive membership
    of the extension in [{mp3, wav, m4a, flac}]. *)
Definition extension_check (name : string) : bool :=
  match after_last_dot name with
  | Some e => includes (toLowerCase e) supported_formats
  | None => false
  end.

(** Modelled from the spec: the size limit, 25 MiB. *)
Definition size_limit : Z := 25 * 1024 * 1024.

(** Modelled from the spec: the size check, "byte length must not exceed
    25 MiB". *)
Definition size_check (n : Z) : bool := n <=? size_limit.

(** Modelled from the spec: the error taxonomy of [backend/app.py]. *)
Inductive Failure : Type :=
| ValidationError (reason : RejectReason)
| UpstreamTranscriptionError
| UpstreamSummarizationError.

(** Modelled from the spec: the two external collaborators of
    [backend/app.py], as calls it makes. *)
Inductive ExternalCall : Type := Transcription | Summarization.

(** Modelled from the spec: the state [backend/app.py] works on, the
    transient upload directory (path to staged file) and the external calls
    made so far. *)
Record Server : Type := mkServer {
  uploads : gmap string Upload;
  external : list ExternalCall
}.

(** Modelled from the spec: writing the accepted file to its transient
    location. *)
Definition stage (path : string) (u : Upload) (sv : Server) : Server :=
  {| uploads := <[path := u]> (uploads sv); external := external sv |}.

(** Modelled from the spec: deleting the staged file. *)
Definition release (path : string) (sv : Server) : Server :=
  {| uploads := delete path (uploads sv); external := external sv |}.

(** Modelled from the spec: a call to one of the two providers. *)
Definition call (c : ExternalCall) (sv : Server) : Server :=
  {| uploads := uploads sv; external := external sv ++ [c] |}.

(** Modelled from the spec: "scoped acquisition with guaranteed release" of
    the staged file in [backend/app.py].  A failure of the body is a value
    here, so the release after it runs on every exit path. *)
Definition with_staged_file {A} (path : string) (u : Upload)
    (body : Server -> A * Server) (sv : Server) : A * Server :=
  let (a, sv') := body (stage path u sv) in (a, release path sv').

Section Service.
Variable parse : string -> option JsValue.
(** Filename sanitisation, which the specification names but does not
    define. *)
Variable sanitize : string -> string.
(** The user-facing message of a failure. *)
Variable describe : Failure -> string.
(** The speech-to-text provider; [None] when it fails or times out. *)
Variable transcribe : Upload -> option string.
(** The summarization provider, from the transcript to the raw text it
    returns; [None] when it is unavailable. *)
Variable summarise : string -> option string.

(** Modelled from the spec: the Gatekeeper's verdict in [backend/app.py],
    checks in the order extension, size, presence, first failure wins. *)
Definition validate (req : option Upload) : ValidationVerdict :=
  match req with
  | Some u =>
      if negb (extension_check (filename u)) then Rejected UnsupportedFormat
      else if negb (size_check (byte_length u)) then Rejected TooLarge
      else Accepted (sanitize (filename u)) (byte_length u)
  | None => Rejected NoFileProvided
  end.

(** Modelled from the spec: transcription, then summarization, then the
    Normalizer, in [backend/app.py]; a provider failure ends the run. *)
Definition process (u : Upload) (sv : Server)
  : (Failure + SummaryResult) * Server :=
  let sv1 := call Transcription sv in
  match transcribe u with
  | None => (inl UpstreamTranscriptionError, sv1)
  | Some text =>
      let sv2 := call Summarization sv1 in
      match summarise text with
      | None => (inl UpstreamSummarizationError, sv2)
      | Some raw => (inr (normalize parse text raw), sv2)
      end
  end.

(** Modelled from the spec: the failure body of [POST /api/upload],
    [{"success": false, "error": "<message>"}] with status 200. *)
Definition failure_response (f : Failure) : Response :=
  {| status := 200;
     data := obj [("success", JBool false); ("error", JStr (describe f))] |}.

(** Modelled from the spec: the success response, status 200. *)
Definition success_response (r : SummaryResult) : Response :=
  {| status := 200; data := encode_result r |}.

(** Modelled from the spec: the response to an outcome. *)
Definition respond (outcome : Failure + SummaryResult) : Response :=
  match outcome with
  | inl f => failure_response f
  | inr r => success_response r
  end.

(** Modelled from the spec: one request of [POST /api/upload] in
    [backend/app.py], up to its outcome; [path] is the per-request-unique
    staging name. *)
Definition run_upload (path : string) (req : option Upload) (sv : Server)
  : (Failure + SummaryResult) * Server :=
  match validate req, req with
  | Accepted _ _, Some u => with_staged_file path u (process u) sv
  | Rejected reason, _ => (inl (ValidationError reason), sv)
  | Accepted _ _, None => (inl (ValidationError NoFileProvided), sv)
  end.

(** Modelled from the spec: the handler of [POST /api/upload]. *)
Definition handle_upload (path : string) (req : option Upload) (sv : Server)
  : Response * Server :=
  let (outcome, sv') := run_upload path req sv in (respond outcome, sv').
End Service.

End Backend.

(* ===================================================================== *)
(** ** A reader for JSON text *)
(* ===================================================================== *)

(** A small reader for JSON text (objects, arrays, strings with the common
    escapes, integers, [true], [false], [null]), used to run the service on
    concrete payloads.  [None] is a parse error. *)
Module Json.
Import Js.

Definition is_ws (c : ascii) : bool :=
  let n := N_of_ascii c in
  ((n =? 32) || (n =? 9) || (n =? 10) || (n =? 13))%N.

Fixpoint skip_ws (s : string) : string :=
  match s with
  | String c s' => if is_ws c then skip_ws s' else s
  | EmptyString => s
  end.

Definition dquote : ascii := "034"%char.
Definition backslash : ascii := "092"%char.

Definition is_digit (c : ascii) : bool :=
  let n := N_of_ascii c in ((48 <=? n) && (n <=? 57))%N.

Fixpoint read_digits (acc : Z) (s : string) : Z * string :=
  match s with
  | String c s' =>
      if is_digit c
      then read_digits (10 * acc + Z.of_N (N_of_ascii c) - 48) s'
      else (acc, s)
  | EmptyString => (acc, s)
  end.

(** The characters after an opening quote, up to the closing one. *)
Fixpoint read_string (s : string) : option (string * string) :=
  match s with
  | EmptyString => None
  | String c s' =>
      if Ascii.eqb c dquote then Some (EmptyString, s')
      else if Ascii.eqb c backslash then
        match s' with
        | String e s'' =>
            let unescaped :=
              if Ascii.eqb e "n" then Some "010"%char
              else if Ascii.eqb e "t" then Some "009"%char
              else if Ascii.eqb e "r" then Some "013"%char
              else if Ascii.eqb e dquote || Ascii.eqb e backslash || Ascii.eqb e "/"
                   then Some e
              else None in
            match unescaped, read_string s'' with
            | Some u, Some (body, rest) => Some (String u body, rest)
            | _, _ => None
            end
        | EmptyString => None
        end
      else
        match read_string s' with
        | Some (body, rest) => Some (String c body, rest)
        | None => None
        end
  end.

Definition strip (lit s : string) : option string :=
  if String.prefix lit s
  then Some (string_drop (String.length lit) s) else None.

(** [read_value] reads one value; [read_elements] and [read_members] read
    what follows ['['] and ['{'] once the first item is known not to be the
    closing bracket.  Each call spends one unit of [fuel]. *)
Fixpoint read_value (fuel : nat) (s : string) : option (JsValue * string) :=
  match fuel with
  | O => None
  | S fuel' =>
      match skip_ws s with
      | EmptyString => None
      | String c s' =>
          if Ascii.eqb c dquote then
            match read_string s' with
            | Some (str, rest) => Some (JStr str, rest)
            | None => None
            end
          else if Ascii.eqb c "[" then
            match skip_ws s' with
            | String "]" rest => Some (JArr [], rest)
            | _ =>
                match read_elements fuel' s' with
                | Some (xs, rest) => Some (JArr xs, rest)
                | None => None
                end
            end
          else if Ascii.eqb c "{" then
            match skip_ws s' with
            | String "}" rest => Some (JObj ∅, rest)
            | _ =>
                match read_members fuel' s' with
                | Some (kvs, rest) => Some (JObj (list_to_map kvs), rest)
                | None => None
                end
            end
          else if is_digit c then
            let (n, rest) := read_digits 0 (String c s') in Some (JNum n, rest)
          else if Ascii.eqb c "-" then
            match s' with
            | String d _ =>
                if is_digit d
                then let (n, rest) := read_digits 0 s' in Some (JNum (- n), rest)
                else None
            | EmptyString => None
            end
          else
            match strip "true" (String c s'), strip "false" (String c s'),
                  strip "null" (String c s') with
            | Some rest, _, _ => Some (JBool true, rest)
            | _, Some rest, _ => Some (JBool false, rest)
            | _, _, Some rest => Some (JNull, rest)
            | _, _, _ => None
            end
      end
  end
with read_elements (fuel : nat) (s : string)
  : option (list JsValue * string) :=
  match fuel with
  | O => None
  | S fuel' =>
      match read_value fuel' s with
      | Some (x, rest) =>
          match skip_ws rest with
          | String "]" rest' => Some ([x], rest')
          | String "," rest' =>
              match read_elements fuel' rest' with
              | Some (xs, rest'') => Some (x :: xs, rest'')
              | None => None
              end
          | _ => None
          end
      | None => None
      end
  end
with read_members (fuel : nat) (s : string)
  : option (list (string * JsValue) * string) :=
  match fuel with
  | O => None
  | S fuel' =>
      match skip_ws s with
      | String q s' =>
          if negb (Ascii.eqb q dquote) then None else
          match read_string s' with
          | Some (key, rest) =>
              match skip_ws rest with
              | String ":" rest' =>
                  match read_value fuel' rest' with
                  | Some (x, rest'') =>
                      match skip_ws rest'' with
                      | String "}" rest3 => Some ([(key, x)], rest3)
                      | String "," rest3 =>
                          match read_members fuel' rest3 with
                          | Some (kvs, rest4) => Some ((key, x) :: kvs, rest4)
                          | None => None
                          end
                      | _ => None
                      end
                  | None => None
                  end
              | _ => None
              end
          | None => None
          end
      | _ => None
      end
  end.

(** JSON text written with ['] for the double quote. *)
Fixpoint text (s : string) : string :=
  match s with
  | EmptyString => EmptyString
  | String c s' => String (if Ascii.eqb c "'" then dquote else c) (text s')
  end.

(** The whole text must be one value. *)
Definition parse (s : string) : option JsValue :=
  match read_value (2 * String.length s + 2) s with
  | Some (v, rest) =>
      match skip_ws rest with
      | EmptyString => Some v
      | _ => None
      end
  | None => None
  end.

End Json.

(* ===================================================================== *)
(** ** Sample collaborators *)
(* ===================================================================== *)

(** Concrete providers, messages and an upload, to run the service on. *)
Module Samples.
Import Js Backend.

Definition say (text : string) : Upload -> option string := fun _ => Some text.
Definition answer (raw : string) : string -> option string := fun _ => Some raw.
Definition unavailable {A} : A -> option string := fun _ => None.
Definition failure_text (f : Failure) : string :=
  match f with
  | ValidationError _ => "Invalid upload"
  | UpstreamTranscriptionError => "Could not transcribe the audio"
  | UpstreamSummarizationError => "Could not summarise the transcript"
  end.
Definition meeting_mp3 : Upload :=
  {| filename := "meeting.mp3"; content_type := "audio/mpeg";
     byte_length := 10 * 1024 * 1024 |}.
Definition idle : Server := {| uploads := ∅; external := [] |}.

(** A success body with everything the results section reads, and nothing
    in it. *)
Definition empty_summary_body : JsValue :=
  obj [("success", JBool true);
       ("summary",
        obj [("key_decisions", JArr []); ("action_items", JArr []);
             ("next_steps", JArr []);
             ("meeting_metrics", obj [("key_topics", JArr [])])])].

End Samples.

(* ===================================================================== *)
(** ** The results section of the render function ([FrontEnd/src/App.jsx]) *)
(* ===================================================================== *)

(** What the JSX under [{result && (...)}] reads from [result], expression by
    expression.  [None] is a [TypeError] thrown while those expressions are
    evaluated (a property of [undefined] or [null], or a call of a [map] that
    is not there), which aborts the render. *)
Module Render.
Import Js App.

(** [v.a.b.c]: a chain of property reads. *)
Fixpoint read (v : JsValue) (path : list string) : option JsValue :=
  match path with
  | [] => Some v
  | k :: rest => v' ← get_prop v k; read v' rest
  end.

(** [v.length] (of a string: its length as the byte string it is here) *)
Definition get_length (v : JsValue) : option JsValue :=
  match v with
  | JUndefined | JNull => None
  | JArr xs => Some (JNum (Z.of_nat (length xs)))
  | JStr s => Some (JNum (Z.of_nat (String.length s)))
  | JObj fields => Some (default JUndefined (fields !! "length"))
  | JBool _ | JNum _ => Some JUndefined
  end.

(** [v.map(f)]: only an array has a [map] to call; [f] runs on the elements
    in order and a throw inside it ends the whole call. *)
Definition js_map {A} (f : JsValue -> option A) (v : JsValue)
  : option (list A) :=
  match v with
  | JArr xs => mapM f xs
  | _ => None
  end.

(** [v === 'literal'] *)
Definition strict_eq_string (v : JsValue) (literal : string) : bool :=
  match v with
  | JStr s => String.eqb s literal
  | _ => false
  end.

(** The colour classes of the priority badge. *)
Definition priority_class (priority : JsValue) : string :=
  if strict_eq_string priority "High" then "bg-red-100 text-red-800"
  else if strict_eq_string priority "Medium"
       then "bg-yellow-100 text-yellow-800"
  else "bg-green-100 text-green-800".

(** One action item as displayed. *)
Record ItemView : Type := mkItemView {
  shown_task : JsValue;
  shown_owner : JsValue;
  shown_deadline : JsValue;
  shown_priority : JsValue;
  badge : string
}.

(** The callback of [result.summary.action_items.map]. *)
Definition render_item (item : JsValue) : option ItemView :=
  task ← get_prop item "task";
  owner ← get_prop item "owner";
  deadline ← get_prop item "deadline";
  priority ← get_prop item "priority";
  Some {| shown_task := task; shown_owner := owner;
          shown_deadline := deadline; shown_priority := priority;
          badge := priority_class priority |}.

(** The values the results section puts on the page. *)
Record ResultsView : Type := mkResultsView {
  decisions_card : JsValue;
  actions_card : JsValue;
  words_card : JsValue;
  topics_card : JsValue;
  words_label : JsValue;
  transcript_box : JsValue;
  summary_box : JsValue;
  decisions : list JsValue;
  items : list ItemView;
  steps : list JsValue
}.

(** The expressions of the results section, in document order. *)
Definition render_results (result : JsValue) : option ResultsView :=
  total_decisions ← read result ["summary"; "meeting_metrics"; "total_decisions"];
  total_action_items ←
    read result ["summary"; "meeting_metrics"; "total_action_items"];
  word_count ← read result ["word_count"];
  key_topics ← read result ["summary"; "meeting_metrics"; "key_topics"];
  topics ← get_length key_topics;
  word_count' ← read result ["word_count"];
  transcript ← read result ["transcript"];
  summary ← read result ["summary"; "summary"];
  key_decisions ← read result ["summary"; "key_decisions"];
  decision_rows ← js_map Some key_decisions;
  action_items ← read result ["summary"; "action_items"];
  item_rows ← js_map render_item action_items;
  next_steps ← read result ["summary"; "next_steps"];
  step_rows ← js_map Some next_steps;
  Some {| decisions_card := total_decisions;
          actions_card := total_action_items;
          words_card := word_count;
          topics_card := topics;
          words_label := word_count';
          transcript_box := transcript;
          summary_box := summary;
          decisions := decision_rows;
          items := item_rows;
          steps := step_rows |}.

(** [{result && (...)}]: nothing when [result] is falsy. *)
Definition render_section (s : AppState) : option (option ResultsView) :=
  if truthy (result s) then Some <$> render_results (result s) else Some None.

(** The shape the reads above need, stated on the value. *)
Definition nullish (v : JsValue) : bool :=
  match v with JUndefined | JNull => true | _ => false end.

Definition is_array (v : JsValue) : bool :=
  match v with JArr _ => true | _ => false end.

Definition is_item_array (v : JsValue) : bool :=
  match v with
  | JArr xs => forallb (fun x => negb (nullish x)) xs
  | _ => false
  end.

Definition renderable (result : JsValue) : bool :=
  let summary := get_prop_opt result "summary" in
  let metrics := get_prop_opt summary "meeting_metrics" in
  negb (nullish result) &&
  negb (nullish summary) &&
  negb (nullish metrics) &&
  negb (nullish (get_prop_opt metrics "key_topics")) &&
  is_array (get_prop_opt summary "key_decisions") &&
  is_item_array (get_prop_opt summary "action_items") &&
  is_array (get_prop_opt summary "next_steps").

End Render.

(* ===================================================================== *)
(** ** Sessions: sequences of events seen from outside *)
(* ===================================================================== *)

Module Session.
Import Js App.

(** Two events are the same user action: the same file list, or a press on
    the button (whatever the server then answers). *)
Definition same_action (e e' : Event) : Prop :=
  match e, e' with
  | FileChange files, FileChange files' => files = files'
  | Upload _, Upload _ => True
  | _, _ => False
  end.

(** The file a change of the input picks, if it picks one. *)
Definition picked (e : Event) : option File :=
  match e with
  | FileChange files => files !! 0%nat
  | Upload _ => None
  end.

(** The last file picked in a session. *)
Definition last_pick (es : list Event) : option File := last (omap picked es).

Definition is_press (e : Event) : bool :=
  match e with Upload _ => true | FileChange _ => false end.

(** How often the button was pressed. *)
Definition presses (es : list Event) : nat := length (filter is_press es).

(** Every success body among the replies of a session has what the results
    section reads. *)
Definition successes_renderable (es : list Event) : Prop :=
  forall response s,
    In (Upload (Fulfilled response)) es ->
    get_prop (data response) "success" = Some s -> truthy s = true ->
    Render.renderable (data response) = true.

End Session.

(* ===================================================================== *)
(** ** [handleUpload] around its [await] *)
(* ===================================================================== *)

(** [handleUpload] in the two parts the [await] cuts it into: other handlers
    can run between them. *)
Module Await.
Import Js App.

(** Handing the form to [axios.post]: the request goes out. *)
Definition post_request (req : Request) : Handler unit :=
  fun w => (tt, {| ui := ui w; sent := sent w ++ [req] |}).

(** [handleUpload] up to the [await]; [true] when a request is pending. *)
Definition upload_begin : Handler bool :=
  f ← getFile;
  match f with
  | None => setError (JStr msg_no_file) ;; mret false
  | Some file =>
      setLoading true ;;
      setError (JStr EmptyString) ;;
      setResult JNull ;;
      post_request (upload_request file) ;;
      mret true
  end.

(** [handleUpload] from the [await] on, once the promise has settled: the
    rest of the [try] block, the [catch] block, the [finally] block. *)
Definition upload_settle (reply : Settled) : Handler unit :=
  outcome ← match reply with
            | Fulfilled response => on_response response
            | Failed err => mret (inr err)
            end;
  match outcome with
  | inl _ => mret tt
  | inr err => on_catch err
  end ;;
  setLoading false.

(** File-input changes while the request is pending. *)
Definition changes_during (changes : list (list File)) (w : World) : World :=
  run (FileChange <$> changes) w.

End Await.

(* ===================================================================== *)
(** ** Facts about the string primitives *)
(* ===================================================================== *)

Module JsFacts.
Import Js.

Lemma ascii_eqb_dot (c : ascii) : Ascii.eqb c "." = true <-> c = "."%char.
Proof. apply Ascii.eqb_eq. Qed.

(** Lowercasing neither creates nor removes a ['.']. *)
Lemma lower_char_dot (c : ascii) :
  Ascii.eqb (lower_char c) "." = Ascii.eqb c ".".
Proof.
  destruct c as [[] [] [] [] [] [] [] []]; reflexivity.
Qed.

Lemma toLowerCase_length (s : string) :
  String.length (toLowerCase s) = String.length s.
Proof. induction s as [|c s IH]; simpl; congruence. Qed.

Lemma prefix_dot (c : ascii) (s : string) :
  String.prefix "." (String c s) = Ascii.eqb c ".".
Proof.
  change (String.prefix "." (String c s))
    with (if ascii_dec "." c then String.prefix EmptyString s else false).
  destruct (ascii_dec "." c) as [<-|Hne].
  - now destruct s.
  - symmetry. apply Ascii.eqb_neq. congruence.
Qed.

Lemma string_drop_0 (s : string) : string_drop 0 s = s.
Proof. destruct s; reflexivity. Qed.

(** [substring] from a negative index is the whole string. *)
Lemma substring_negative (start : Z) (s : string) :
  start <= 0 -> substring start s = s.
Proof.
  intros Hneg. unfold substring.
  replace (Z.min (Z.max start 0) (Z.of_nat (String.length s))) with 0 by lia.
  apply string_drop_0.
Qed.

Lemma substring_nat (n : nat) (s : string) :
  (n <= String.length s)%nat -> substring (Z.of_nat n) s = string_drop n s.
Proof.
  intros Hle. unfold substring.
  replace (Z.min (Z.max (Z.of_nat n) 0) (Z.of_nat (String.length s)))
    with (Z.of_nat n) by lia.
  now rewrite Nat2Z.id.
Qed.

Lemma string_eqb_cons (a b : ascii) (s t : string) :
  String.eqb (String a s) (String b t) = Ascii.eqb a b && String.eqb s t.
Proof. simpl. destruct (Ascii.eqb a b); reflexivity. Qed.

Lemma includes_true (x : string) (xs : list string) :
  includes x xs = true <-> In x xs.
Proof.
  induction xs as [|y ys IH]; simpl.
  - split; [discriminate | tauto].
  - destruct (String.eqb y x) eqn:E.
    + apply String.eqb_eq in E. tauto.
    + apply String.eqb_neq in E. rewrite IH. tauto.
Qed.

End JsFacts.

(* ===================================================================== *)
(** ** The client-side checks *)
(* ===================================================================== *)

Module AppFacts.
Import Js JsFacts App.

(** *** The extension the code computes *)

Lemma after_last_dot_shorter (s e : string) :
  Backend.after_last_dot s = Some e ->
  (String.length e < String.length s)%nat.
Proof.
  revert e. induction s as [|c s IH]; intros e; simpl; [discriminate|].
  destruct (Backend.after_last_dot s) as [e'|].
  - intros [= <-]. specialize (IH _ eq_refl). lia.
  - destruct (Ascii.eqb c "."); [|discriminate]. intros [= <-]. lia.
Qed.

Lemma after_last_dot_lower (s : string) :
  Backend.after_last_dot (toLowerCase s)
  = toLowerCase <$> Backend.after_last_dot s.
Proof.
  induction s as [|c s IH]; simpl; [reflexivity|].
  rewrite IH, lower_char_dot.
  destruct (Backend.after_last_dot s); simpl; [reflexivity|].
  destruct (Ascii.eqb c "."); reflexivity.
Qed.

Lemma after_last_dot_none (s : string) :
  Backend.after_last_dot s = None <-> has_dot s = false.
Proof.
  induction s as [|c s IH]; simpl; [tauto|].
  destruct (Backend.after_last_dot s) as [e|].
  - split; [discriminate|]. intros H. apply orb_false_iff in H as [_ H].
    apply IH in H. discriminate.
  - destruct (Ascii.eqb c "."); simpl; [split; discriminate|].
    split; intros _; [now apply IH | reflexivity].
Qed.

(** [lastIndexOf('.')] finds the dot that [after_last_dot] splits at. *)
Lemma lastIndexOf_from_dot (s : string) (i : Z) :
  0 <= i ->
  lastIndexOf_from "." s i =
  match Backend.after_last_dot s with
  | Some e => i + Z.of_nat (String.length s) - Z.of_nat (String.length e) - 1
  | None => -1
  end.
Proof.
  revert i. induction s as [|c s IH]; intros i Hi.
  - reflexivity.
  - cbn [lastIndexOf_from Backend.after_last_dot].
    rewrite (IH (i + 1)) by lia. rewrite prefix_dot.
    destruct (Backend.after_last_dot s) as [e|] eqn:E.
    + apply after_last_dot_shorter in E.
      destruct (Z.leb_spec 0
        (i + 1 + Z.of_nat (String.length s) - Z.of_nat (String.length e) - 1));
        cbn [String.length]; lia.
    + change (0 <=? -1) with false.
      destruct (Ascii.eqb c "."); cbn [String.length]; lia.
Qed.

Lemma drop_to_last_dot (s e : string) :
  Backend.after_last_dot s = Some e ->
  string_drop (String.length s - S (String.length e)) s = String "." e.
Proof.
  revert e. induction s as [|c s IH]; intros e; simpl; [discriminate|].
  destruct (Backend.after_last_dot s) as [e'|] eqn:E.
  - intros [= <-]. pose proof (after_last_dot_shorter _ _ E) as Hlt.
    specialize (IH _ eq_refl).
    destruct (String.length s - String.length e')%nat as [|k] eqn:Ek; [lia|].
    replace k with (String.length s - S (String.length e'))%nat by lia.
    exact IH.
  - destruct (Ascii.eqb c ".") eqn:Ec; [|discriminate]. intros [= <-].
    apply ascii_eqb_dot in Ec. subst c.
    now rewrite Nat.sub_diag.
Qed.

(** What [fileName.substring(fileName.lastIndexOf('.'))] evaluates to. *)
Lemma substring_lastIndexOf (s : string) :
  substring (lastIndexOf "." s) s =
  match Backend.after_last_dot s with
  | Some e => String "." e
  | None => s
  end.
Proof.
  unfold lastIndexOf. rewrite lastIndexOf_from_dot by lia.
  destruct (Backend.after_last_dot s) as [e|] eqn:E.
  - pose proof (after_last_dot_shorter _ _ E) as Hlt.
    replace (0 + Z.of_nat (String.length s) - Z.of_nat (String.length e) - 1)
      with (Z.of_nat (String.length s - S (String.length e))) by lia.
    rewrite substring_nat by lia. now apply drop_to_last_dot.
  - now apply substring_negative.
Qed.

Lemma fileExtension_eq (f : File) :
  fileExtension f =
  match Backend.after_last_dot (name f) with
  | Some e => String "." (toLowerCase e)
  | None => toLowerCase (name f)
  end.
Proof.
  unfold fileExtension. rewrite substring_lastIndexOf, after_last_dot_lower.
  now destruct (Backend.after_last_dot (name f)).
Qed.

Lemma includes_dotted (e : string) :
  includes (String "." e) allowedExtensions
  = includes e Backend.supported_formats.
Proof.
  unfold allowedExtensions, Backend.supported_formats.
  cbn [includes]. now rewrite !string_eqb_cons.
Qed.

(** An allowed extension has a ['.']. *)
Lemma allowed_has_dot (s : string) :
  includes s allowedExtensions = true -> has_dot s = true.
Proof.
  intros H. apply includes_true in H.
  repeat (destruct H as [<-|H]; [reflexivity|]). destruct H.
Qed.

Lemma has_dot_lower (s : string) : has_dot (toLowerCase s) = has_dot s.
Proof.
  induction s as [|c s IH]; simpl; [reflexivity|].
  now rewrite IH, lower_char_dot.
Qed.

(** The check of the code is the extension check of the specification. *)
Lemma extension_ok_spec (f : File) :
  extension_ok f = Backend.extension_check (name f).
Proof.
  unfold extension_ok, Backend.extension_check. rewrite fileExtension_eq.
  destruct (Backend.after_last_dot (name f)) as [e|] eqn:E.
  - apply includes_dotted.
  - apply after_last_dot_none in E.
    destruct (includes (toLowerCase (name f)) allowedExtensions) eqn:Hin;
      [|reflexivity].
    apply allowed_has_dot in Hin. rewrite has_dot_lower in Hin. congruence.
Qed.

(** The code and the specification's wording on a few names. *)
Example fileExtension_examples :
  fileExtension {| name := "Q3.Review.MP3"; size := 1 |} = ".mp3" /\
  fileExtension {| name := "recording"; size := 1 |} = "recording" /\
  fileExtension {| name := "notes."; size := 1 |} = "." /\
  lastIndexOf "." "q3.review.mp3" = 9 /\
  lastIndexOf "." "recording" = -1 /\
  Backend.after_last_dot "Q3.Review.MP3" = Some "MP3" /\
  Backend.after_last_dot "recording" = None /\
  extension_ok {| name := "Q3.Review.MP3"; size := 1 |} = true /\
  extension_ok {| name := "mp3"; size := 1 |} = false /\
  extension_ok {| name := "talk.mp3.txt"; size := 1 |} = false.
Proof. repeat split. Qed.

(** *** Running the handlers *)

Ltac run_handler :=
  unfold handleFileChange, handleUpload, on_response, on_catch, axios_post,
    getFile, setFile, setError, setLoading, setResult, modify_ui,
    mbind, mret, handler_bind, handler_ret;
  cbn [lookup list_lookup fst snd ui sent file loading result error].

Lemma handleFileChange_empty (w : World) : handleFileChange [] w = (tt, w).
Proof. reflexivity. Qed.

Lemma handleFileChange_unsupported (f : File) (rest : list File) (w : World) :
  extension_ok f = false ->
  snd (handleFileChange (f :: rest) w) =
  {| ui := {| file := None; loading := loading (ui w);
              result := result (ui w); error := JStr msg_unsupported |};
     sent := sent w |}.
Proof. intros H. run_handler. now rewrite H. Qed.

Lemma handleFileChange_too_large (f : File) (rest : list File) (w : World) :
  extension_ok f = true -> size f > max_size ->
  snd (handleFileChange (f :: rest) w) =
  {| ui := {| file := None; loading := loading (ui w);
              result := result (ui w); error := JStr msg_too_large |};
     sent := sent w |}.
Proof.
  intros H Hsz. run_handler. rewrite H.
  destruct (Z.gtb_spec (size f) max_size); [reflexivity | lia].
Qed.

Lemma handleFileChange_selected (f : File) (rest : list File) (w : World) :
  extension_ok f = true -> size f <= max_size ->
  snd (handleFileChange (f :: rest) w) =
  {| ui := {| file := Some f; loading := loading (ui w);
              result := result (ui w); error := JStr EmptyString |};
     sent := sent w |}.
Proof.
  intros H Hsz. run_handler. rewrite H.
  destruct (Z.gtb_spec (size f) max_size); [lia | reflexivity].
Qed.

Lemma handleUpload_no_file (reply : Settled) (w : World) :
  file (ui w) = None ->
  snd (handleUpload reply w) =
  {| ui := {| file := None; loading := loading (ui w);
              result := result (ui w); error := JStr msg_no_file |};
     sent := sent w |}.
Proof. intros H. run_handler. rewrite H. cbn. now rewrite H. Qed.

Lemma handleUpload_sends (reply : Settled) (w : World) (f : File) :
  file (ui w) = Some f ->
  sent (snd (handleUpload reply w)) = (sent w ++ [upload_request f])%list /\
  file (ui (snd (handleUpload reply w))) = Some f /\
  loading (ui (snd (handleUpload reply w))) = false.
Proof.
  intros H. run_handler. rewrite H.
  destruct reply as [response|err]; [|now run_handler; rewrite ?H].
  run_handler. destruct (get_prop (data response) "success") as [s|];
    [|now run_handler; rewrite ?H].
  destruct (truthy s); [now run_handler; rewrite ?H|].
  destruct (get_prop (data response) "error"); now run_handler; rewrite ?H.
Qed.

(** The reply is a 2xx response whose body has a falsy [success]: the [else]
    branch puts [response.data.error || 'Processing failed'] on display and
    leaves the result cleared. *)
Lemma handleUpload_failure_body (w : World) (held : File) (code : Z)
    (body s e : JsValue) :
  file (ui w) = Some held ->
  200 <= code < 300 ->
  get_prop body "success" = Some s -> truthy s = false ->
  get_prop body "error" = Some e ->
  snd (handleUpload (axios_settle (Some {| status := code; data := body |})) w)
  = {| ui := {| file := Some held; loading := false; result := JNull;
                error := or_else e (JStr msg_processing_failed) |};
       sent := (sent w ++ [upload_request held])%list |}.
Proof.
  intros Hf Hcode Hs Hfalsy He. unfold axios_settle. cbn [status].
  replace ((code =? 0) || ((200 <=? code) && (code <? 300))) with true
    by (symmetry; apply orb_true_iff; right; apply andb_true_iff; split;
        [apply Z.leb_le | apply Z.ltb_lt]; lia).
  run_handler. rewrite Hf. run_handler. cbn [data].
  rewrite Hs, Hfalsy, He. run_handler. now rewrite Hf.
Qed.

End AppFacts.

(* ===================================================================== *)
(** ** Properties of the client-side gatekeeping *)
(* ===================================================================== *)

Module ClientSide.
Import Js JsFacts App AppFacts.

Lemma passes_checks_true (f : File) :
  passes_checks f = true <-> extension_ok f = true /\ size f <= max_size.
Proof.
  unfold passes_checks. rewrite andb_true_iff, negb_true_iff.
  destruct (Z.gtb_spec (size f) max_size); intuition (try lia; congruence).
Qed.

Lemma handleFileChange_sent (files : list File) (w : World) :
  sent (snd (handleFileChange files w)) = sent w.
Proof.
  destruct files as [|f rest]; [reflexivity|].
  destruct (extension_ok f) eqn:Hext.
  - destruct (Z.gtb_spec (size f) max_size).
    + rewrite handleFileChange_too_large by (trivial; lia). reflexivity.
    + now rewrite handleFileChange_selected.
  - now rewrite handleFileChange_unsupported.
Qed.

Lemma step_checked (w : World) (e : Event) : checked w -> checked (step w e).
Proof.
  intros [Hfile Hsent]. unfold step, checked.
  destruct e as [files|reply]; cbn [handle].
  - split; [|now rewrite handleFileChange_sent].
    destruct files as [|f rest]; [exact Hfile|].
    destruct (extension_ok f) eqn:Hext.
    + destruct (Z.gtb_spec (size f) max_size).
      * rewrite handleFileChange_too_large by (trivial; lia). discriminate.
      * rewrite handleFileChange_selected by trivial. simpl.
        intros g [= <-]. now apply passes_checks_true.
    + rewrite handleFileChange_unsupported by trivial. discriminate.
  - destruct (file (ui w)) as [f|] eqn:Hf.
    + destruct (handleUpload_sends reply w f Hf) as (-> & -> & _).
      split.
      * intros g [= <-]. now apply Hfile.
      * apply Forall_app. split; [exact Hsent|].
        constructor; [|constructor]. now apply Hfile.
    + rewrite handleUpload_no_file by trivial. simpl. split; [discriminate|].
      exact Hsent.
Qed.

Lemma run_checked (es : list Event) (w : World) :
  checked w -> checked (run es w).
Proof.
  revert w. induction es as [|e es IH]; intros w Hw; [exact Hw|].
  apply IH. now apply step_checked.
Qed.

Lemma start_checked : checked start.
Proof. split; [discriminate | constructor]. Qed.

(** C4: a file whose extension (the substring after the last ['.'], compared
    case-insensitively) is outside [{mp3, wav, m4a, flac}] is refused with the
    unsupported-format message, whatever its size; a file whose extension is
    in the set passes the extension check of the code, so that the size check
    alone decides.  The check reads the filename only up to letter case. *)
Theorem extension_check_decides (f : File) (rest : list File) (w : World) :
  (Backend.extension_check (name f) = false ->
   rejected_with UnsupportedFormat w (snd (handleFileChange (f :: rest) w))) /\
  (Backend.extension_check (name f) = true ->
   extension_ok f = true /\
   (size f <= 25 * 1024 * 1024 ->
    accepted f w (snd (handleFileChange (f :: rest) w))) /\
   (25 * 1024 * 1024 < size f ->
    rejected_with TooLarge w (snd (handleFileChange (f :: rest) w)))) /\
  (forall g, toLowerCase (name g) = toLowerCase (name f) ->
             extension_ok g = extension_ok f).
Proof.
  rewrite <- extension_ok_spec. split; [|split].
  - intros H. now rewrite handleFileChange_unsupported.
  - intros H. split; [exact H|]. split; intros Hsz.
    + now rewrite handleFileChange_selected.
    + rewrite handleFileChange_too_large by (trivial; unfold max_size; lia).
      easy.
  - intros g Hg. unfold extension_ok, fileExtension. now rewrite Hg.
Qed.

Lemma extension_check_decides_witness :
  rejected_with UnsupportedFormat start
    (snd (handleFileChange [{| name := "minutes.docx"; size := 2048 |}] start))
  /\ accepted {| name := "Standup.FLAC"; size := 2048 |} start
       (snd (handleFileChange [{| name := "Standup.FLAC"; size := 2048 |}]
                              start)).
Proof.
  split.
  - apply (proj1 (extension_check_decides
                    {| name := "minutes.docx"; size := 2048 |} [] start)).
    reflexivity.
  - apply (proj1 (proj2 (proj1 (proj2 (extension_check_decides
                    {| name := "Standup.FLAC"; size := 2048 |} [] start))
                    eq_refl))).
    simpl. lia.
Defined.

(** C10: a filename without any ['.'] is refused: [lastIndexOf('.')] is [-1],
    [substring(-1)] is the whole lowercased name, which is not in the
    dot-prefixed list, and the stored file is set to [null]. *)
Theorem dotless_name_refused (f : File) (rest : list File) (w : World)
    (Hdot : has_dot (name f) = false) :
  lastIndexOf "." (toLowerCase (name f)) = -1 /\
  fileExtension f = toLowerCase (name f) /\
  includes (toLowerCase (name f)) allowedExtensions = false /\
  rejected_with UnsupportedFormat w (snd (handleFileChange (f :: rest) w)) /\
  file (ui (snd (handleFileChange (f :: rest) w))) = None.
Proof.
  assert (Hnone : Backend.after_last_dot (toLowerCase (name f)) = None).
  { apply after_last_dot_none. now rewrite has_dot_lower. }
  assert (Hidx : lastIndexOf "." (toLowerCase (name f)) = -1).
  { unfold lastIndexOf. rewrite lastIndexOf_from_dot by lia. now rewrite Hnone. }
  assert (Hext : fileExtension f = toLowerCase (name f)).
  { unfold fileExtension. rewrite Hidx. now apply substring_negative. }
  assert (Hin : includes (toLowerCase (name f)) allowedExtensions = false).
  { destruct (includes (toLowerCase (name f)) allowedExtensions) eqn:E;
      [|reflexivity].
    apply allowed_has_dot in E. rewrite has_dot_lower in E. congruence. }
  assert (Hok : extension_ok f = false).
  { unfold extension_ok. now rewrite Hext. }
  rewrite handleFileChange_unsupported by exact Hok. easy.
Qed.

Lemma dotless_name_refused_witness :
  rejected_with UnsupportedFormat start
    (snd (handleFileChange [{| name := "recording"; size := 512 |}] start)).
Proof.
  apply (dotless_name_refused {| name := "recording"; size := 512 |} [] start).
  reflexivity.
Defined.

(** C3, as the code has it: a file with a supported extension and more than
    25 * 1024 * 1024 bytes is refused with the too-large message; with
    exactly 25 * 1024 * 1024 bytes it passes the size check and is taken. *)
Theorem size_check_boundary (f : File) (rest : list File) (w : World)
    (Hext : extension_ok f = true) :
  (25 * 1024 * 1024 < size f ->
   rejected_with TooLarge w (snd (handleFileChange (f :: rest) w))) /\
  (size f = 25 * 1024 * 1024 ->
   accepted f w (snd (handleFileChange (f :: rest) w))).
Proof.
  split; intros Hsz.
  - rewrite handleFileChange_too_large by (trivial; unfold max_size; lia).
    easy.
  - rewrite handleFileChange_selected by (trivial; unfold max_size; lia).
    easy.
Qed.

Lemma size_check_boundary_witness :
  rejected_with TooLarge start
    (snd (handleFileChange [{| name := "meeting.mp3"; size := 26214401 |}]
                           start)) /\
  accepted {| name := "meeting.mp3"; size := 26214400 |} start
    (snd (handleFileChange [{| name := "meeting.mp3"; size := 26214400 |}]
                           start)).
Proof.
  split.
  - apply (proj1 (size_check_boundary
                    {| name := "meeting.mp3"; size := 26214401 |} [] start
                    eq_refl)).
    simpl. lia.
  - apply (proj2 (size_check_boundary
                    {| name := "meeting.mp3"; size := 26214400 |} [] start
                    eq_refl)).
    reflexivity.
Defined.

(** C3 as stated fails: an oversize file with an unsupported extension is
    refused for its extension, not for its size. *)
Lemma oversize_unsupported_counterexample :
  let f := {| name := "notes.txt"; size := 25 * 1024 * 1024 + 1 |} in
  25 * 1024 * 1024 < size f /\
  rejected_with UnsupportedFormat start (snd (handleFileChange [f] start)) /\
  ~ rejected_with TooLarge start (snd (handleFileChange [f] start)).
Proof.
  split; [simpl; lia|]. split; [easy|].
  intros (Herr & _). discriminate Herr.
Qed.

(** C8: the extension check comes before the size check, and the presence
    check of [handleUpload] comes after both: a file failing the extension
    check is refused as unsupported whatever its size; one that passes it and
    is oversize is refused as too large; a file is held at upload time only
    if it went through both; and with no file held the upload is refused for
    want of a file, as it is when nothing was ever attached. *)
Theorem checks_in_order :
  (forall f rest w, extension_ok f = false ->
     rejected_with UnsupportedFormat w (snd (handleFileChange (f :: rest) w)))
  /\
  (forall f rest w, extension_ok f = true -> 25 * 1024 * 1024 < size f ->
     rejected_with TooLarge w (snd (handleFileChange (f :: rest) w)))
  /\
  (forall es f, file (ui (run es start)) = Some f ->
     extension_ok f = true /\ size f <= 25 * 1024 * 1024)
  /\
  (forall reply w, file (ui w) = None ->
     rejected_with NoFileProvided w (snd (handleUpload reply w)))
  /\
  (forall reply,
     rejected_with NoFileProvided start
       (run [FileChange []; Upload reply] start)).
Proof.
  split; [|split; [|split; [|split]]].
  - intros f rest w Hext. now rewrite handleFileChange_unsupported.
  - intros f rest w Hext Hsz.
    rewrite handleFileChange_too_large by (trivial; unfold max_size; lia).
    easy.
  - intros es f Hf. apply passes_checks_true.
    now apply (run_checked es start start_checked).
  - intros reply w Hf. now rewrite handleUpload_no_file.
  - intros reply. unfold run. cbn [fold_left]. unfold step at 2.
    cbn [handle]. rewrite handleFileChange_empty. cbn [snd].
    unfold step. cbn [handle]. now rewrite handleUpload_no_file.
Qed.

Lemma checks_in_order_witness :
  rejected_with UnsupportedFormat start
    (snd (handleFileChange [{| name := "deck.pdf"; size := 99999999 |}] start))
  /\
  rejected_with TooLarge start
    (snd (handleFileChange [{| name := "town-hall.wav"; size := 99999999 |}]
                           start))
  /\
  rejected_with NoFileProvided start (snd (handleUpload (Failed TypeError) start)).
Proof.
  destruct checks_in_order as (Hext & Hsize & _ & Hnone & _).
  split; [|split].
  - apply Hext. reflexivity.
  - apply Hsize; [reflexivity | simpl; lia].
  - apply Hnone. reflexivity.
Defined.

(** C7: no request leaves the client before its file went through both
    checks.  Every request ever sent carries a file that passed them; the
    checks themselves send nothing; and when a check fails (extension, size,
    or no file held) the error is put on display and nothing is sent. *)
Theorem no_request_before_accepted :
  (forall es,
     Forall (fun r => extension_ok (payload r) = true /\
                      size (payload r) <= 25 * 1024 * 1024)
            (sent (run es start)))
  /\
  (forall files w, sent (snd (handleFileChange files w)) = sent w)
  /\
  (forall f rest w, passes_checks f = false ->
     let w' := snd (handleFileChange (f :: rest) w) in
     sent w' = sent w /\ shows_error (ui w') = true /\ file (ui w') = None)
  /\
  (forall reply w, file (ui w) = None ->
     let w' := snd (handleUpload reply w) in
     sent w' = sent w /\ shows_error (ui w') = true /\
     error (ui w') = JStr msg_no_file).
Proof.
  split; [|split; [|split]].
  - intros es. destruct (run_checked es start start_checked) as [_ H].
    eapply Forall_impl; [exact H|].
    intros r Hr. now apply passes_checks_true in Hr.
  - apply handleFileChange_sent.
  - intros f rest w Hf w'. subst w'. unfold passes_checks in Hf.
    destruct (extension_ok f) eqn:Hext.
    + simpl in Hf. apply negb_false_iff in Hf.
      rewrite handleFileChange_too_large by (trivial; lia). easy.
    + now rewrite handleFileChange_unsupported.
  - intros reply w Hf w'. subst w'. now rewrite handleUpload_no_file.
Qed.

Lemma no_request_before_accepted_witness :
  sent (run [FileChange [{| name := "deck.pdf"; size := 1024 |}];
             Upload (Failed (AxiosError None))] start) = [] /\
  sent (snd (handleUpload (Failed (AxiosError None)) start)) = sent start.
Proof.
  destruct no_request_before_accepted as (_ & _ & Hbad & Hnone).
  split.
  - change (sent (snd (handleUpload (Failed (AxiosError None))
       (snd (handleFileChange [{| name := "deck.pdf"; size := 1024 |}] start))))
       = []).
    destruct (Hbad {| name := "deck.pdf"; size := 1024 |} [] start eq_refl)
      as (Hsent & _ & Hfile).
    destruct (Hnone (Failed (AxiosError None)) _ Hfile) as (-> & _).
    exact Hsent.
  - apply Hnone. reflexivity.
Defined.

End ClientSide.

(* ===================================================================== *)
(** ** Properties of the Result Normalizer *)
(* ===================================================================== *)

Module NormalizerFacts.
Import Js Backend.

Lemma field_obj_head (k : string) (v : JsValue) kvs :
  field (obj ((k, v) :: kvs)) k = Some v.
Proof. unfold field, obj. cbn [list_to_map foldr]. apply lookup_insert_eq. Qed.

Lemma field_obj_tail (k k' : string) (v : JsValue) kvs :
  k' <> k -> field (obj ((k', v) :: kvs)) k = field (obj kvs) k.
Proof.
  intros H. unfold field, obj. cbn [list_to_map foldr].
  now apply lookup_insert_ne.
Qed.

Ltac read_fields :=
  repeat (rewrite ?field_obj_head; rewrite ?field_obj_tail by discriminate).

Lemma is_count_num (n : nat) : is_count (Some (num n)) = true.
Proof. unfold is_count, num. apply Z.leb_le. lia. Qed.

Lemma is_strings_strings (xs : list string) :
  is_strings (Some (strings xs)) = true.
Proof.
  unfold is_strings, is_array_of, strings.
  induction xs as [|x xs IH]; [reflexivity | exact IH].
Qed.

Lemma item_shape_encode (a : ActionItem) : item_shape (encode_item a) = true.
Proof. unfold item_shape, encode_item. read_fields. reflexivity. Qed.

Lemma items_shape_encode (items : list ActionItem) :
  is_array_of item_shape (Some (JArr (encode_item <$> items))) = true.
Proof.
  unfold is_array_of.
  induction items as [|a items IH]; [reflexivity|].
  cbn [fmap list_fmap forallb]. rewrite item_shape_encode. exact IH.
Qed.

Lemma metrics_shape_encode (m : MeetingMetrics) :
  metrics_shape (encode_metrics m) = true.
Proof.
  unfold metrics_shape, encode_metrics. read_fields.
  now rewrite !is_count_num, is_strings_strings.
Qed.

Lemma summary_shape_encode (s : Summary.t) :
  summary_shape (encode_summary s) = true.
Proof.
  unfold summary_shape, encode_summary. read_fields.
  now rewrite !is_strings_strings, items_shape_encode, metrics_shape_encode.
Qed.

(** Whatever record the Normalizer returns, its JSON has the target shape. *)
Lemma result_shape_encode (r : SummaryResult) :
  result_shape (encode_result r) = true.
Proof.
  unfold result_shape, encode_result. read_fields.
  now rewrite is_count_num, summary_shape_encode.
Qed.

(** A sequence reader fails exactly when some element is of the wrong type. *)
Lemma mapM_string_of (xs : list JsValue) :
  mapM string_of xs = None <->
  forallb (fun x => is_string (Some x)) xs = false.
Proof.
  induction xs as [|x xs IH]; cbn; [split; discriminate|].
  destruct x; cbn; try (split; [reflexivity | reflexivity]).
  destruct (mapM string_of xs); cbn.
  - split; [discriminate|]. intros H. apply IH in H. discriminate.
  - split; [|reflexivity]. intros _. now apply IH.
Qed.

Lemma mapM_action_item_of (xs : list JsValue) :
  mapM action_item_of xs = None <-> forallb is_object xs = false.
Proof.
  induction xs as [|x xs IH]; cbn; [split; discriminate|].
  destruct x; cbn; try (split; [reflexivity | reflexivity]).
  destruct (mapM action_item_of xs); cbn.
  - split; [discriminate|]. intros H. apply IH in H. discriminate.
  - split; [|reflexivity]. intros _. now apply IH.
Qed.

Lemma read_string_default (v : option JsValue) :
  is_string v = false -> read_string v = EmptyString.
Proof. destruct v as [[]|]; try reflexivity; discriminate. Qed.

Lemma read_strings_default (v : option JsValue) :
  is_strings v = false -> read_strings v = [].
Proof.
  destruct v as [[]|]; try reflexivity.
  unfold is_strings, is_array_of, read_strings. cbn. intros H.
  apply mapM_string_of in H. now rewrite H.
Qed.

Lemma read_action_items_default (v : option JsValue) :
  is_array_of is_object v = false -> read_action_items v = [].
Proof.
  destruct v as [[]|]; try reflexivity.
  unfold is_array_of, read_action_items. cbn. intros H.
  apply mapM_action_item_of in H. now rewrite H.
Qed.

Lemma mapM_string_of_JStr (xs : list string) :
  mapM string_of (JStr <$> xs) = Some xs.
Proof.
  induction xs as [|x xs IH]; [reflexivity|]. cbn.
  cbn in IH. now rewrite IH.
Qed.

Lemma read_strings_strings (xs : list string) :
  read_strings (Some (strings xs)) = xs.
Proof.
  unfold read_strings, strings. cbn [mbind option_bind array_of].
  now rewrite mapM_string_of_JStr.
Qed.

Lemma read_string_defaulted (v : option JsValue) :
  defaulted v (read_string v).
Proof.
  split.
  - apply read_string_default.
  - now intros text ->.
Qed.

Lemma action_item_of_defaulted (v : JsValue) (a : ActionItem) :
  action_item_of v = Some a -> item_defaulted v a.
Proof.
  destruct v; try discriminate. intros [= <-].
  repeat split; cbn [task owner deadline priority];
    apply read_string_defaulted.
Qed.

(** An array of objects is read element by element. *)
Lemma read_action_items_defaulted (items : list JsValue) :
  forallb is_object items = true ->
  Forall2 item_defaulted items (read_action_items (Some (JArr items))).
Proof.
  intros Hobj. unfold read_action_items. cbn [mbind option_bind array_of].
  assert (H : exists out, mapM action_item_of items = Some out /\
                          Forall2 item_defaulted items out).
  { induction items as [|v items IH]; [exists []; split; [reflexivity|constructor]|].
    cbn [forallb] in Hobj. apply andb_true_iff in Hobj as [Hv Hrest].
    destruct (IH Hrest) as (out & Hout & Hall).
    destruct (action_item_of v) as [a|] eqn:Ha;
      [|destruct v; discriminate].
    exists (a :: out). split.
    - cbn. rewrite Ha. cbn. cbn in Hout. now rewrite Hout.
    - constructor; [now apply action_item_of_defaulted | exact Hall]. }
  destruct H as (out & -> & Hall). exact Hall.
Qed.

(** The upstream counts are not read. *)
Lemma normalize_fields_ignores_counts (fields metrics : gmap string JsValue)
    (d a : JsValue) :
  normalize_fields
    (JObj (<["meeting_metrics" :=
               JObj (<["total_decisions" := d]>
                       (<["total_action_items" := a]> metrics))]> fields))
  = normalize_fields (JObj (<["meeting_metrics" := JObj metrics]> fields)).
Proof.
  unfold normalize_fields, field.
  rewrite !lookup_insert_eq. cbn [default from_option id].
  rewrite !(lookup_insert_ne _ "meeting_metrics") by discriminate.
  rewrite (lookup_insert_ne _ "total_decisions" "key_topics") by discriminate.
  now rewrite (lookup_insert_ne _ "total_action_items" "key_topics")
    by discriminate.
Qed.

Section Claims.
Variable parse : string -> option JsValue.

(** C1: every result of the Normalizer has every field of the target shape
    present and of its type; a field the upstream payload omits or malforms
    gets its default (empty string, empty list, 0), a field of the right type
    is taken over, down to the four string fields of every action item; with
    [next_steps] missing, [nextSteps] is the empty list.  The transcript is
    passed through and the word count is that of the transcript. *)
Theorem normalizer_fills_every_field (transcript_text raw : string) :
  let r := normalize parse transcript_text raw in
  let s := summary r in
  result_shape (encode_result r) = true /\
  transcript r = transcript_text /\
  wordCount r = count_words transcript_text /\
  (forall payload, parse raw = Some payload ->
     (field payload "next_steps" = None -> Summary.nextSteps s = []) /\
     (is_string (field payload "summary") = false ->
      Summary.summary s = EmptyString) /\
     (is_strings (field payload "key_decisions") = false ->
      Summary.keyDecisions s = []) /\
     (is_array_of is_object (field payload "action_items") = false ->
      Summary.actionItems s = []) /\
     (is_strings (field payload "next_steps") = false ->
      Summary.nextSteps s = []) /\
     (is_strings (field payload "key_decisions") = false ->
      totalDecisions (Summary.meetingMetrics s) = 0%nat) /\
     (is_array_of is_object (field payload "action_items") = false ->
      totalActionItems (Summary.meetingMetrics s) = 0%nat) /\
     (forall metrics, field payload "meeting_metrics" = Some metrics ->
        is_strings (field metrics "key_topics") = false ->
        keyTopics (Summary.meetingMetrics s) = []) /\
     (field payload "meeting_metrics" = None ->
      keyTopics (Summary.meetingMetrics s) = []) /\
     (forall text, field payload "summary" = Some (JStr text) ->
        Summary.summary s = text) /\
     (forall xs, field payload "key_decisions" = Some (strings xs) ->
        Summary.keyDecisions s = xs) /\
     (forall xs, field payload "next_steps" = Some (strings xs) ->
        Summary.nextSteps s = xs) /\
     (forall metrics xs, field payload "meeting_metrics" = Some metrics ->
        field metrics "key_topics" = Some (strings xs) ->
        keyTopics (Summary.meetingMetrics s) = xs) /\
     (forall items, field payload "action_items" = Some (JArr items) ->
        forallb is_object items = true ->
        Forall2 item_defaulted items (Summary.actionItems s))).
Proof.
  cbn zeta. split; [apply result_shape_encode|].
  split; [reflexivity|]. split; [reflexivity|].
  intros payload Hparse. unfold normalize. cbn [summary]. rewrite Hparse.
  unfold normalize_fields, assemble.
  cbn [Summary.summary Summary.keyDecisions Summary.actionItems
       Summary.nextSteps Summary.meetingMetrics keyTopics
       totalDecisions totalActionItems].
  repeat split.
  - now intros ->.
  - apply read_string_default.
  - apply read_strings_default.
  - apply read_action_items_default.
  - apply read_strings_default.
  - intros H. now rewrite (read_strings_default _ H).
  - intros H. now rewrite (read_action_items_default _ H).
  - intros metrics ->. apply read_strings_default.
  - now intros ->.
  - now intros text ->.
  - intros xs ->. apply read_strings_strings.
  - intros xs ->. apply read_strings_strings.
  - intros metrics xs -> Htopics. cbn [default from_option id].
    rewrite Htopics. apply read_strings_strings.
  - intros items -> Hobj. now apply read_action_items_defaulted.
Qed.

(** C2: in every result of the Normalizer both totals are the lengths of the
    two lists, and what the upstream payload gives as counts changes
    nothing. *)
Theorem totals_recomputed (transcript_text raw : string) :
  let s := summary (normalize parse transcript_text raw) in
  totalDecisions (Summary.meetingMetrics s) = length (Summary.keyDecisions s)
  /\
  totalActionItems (Summary.meetingMetrics s) = length (Summary.actionItems s)
  /\
  (forall (fields metrics : gmap string JsValue) (d a : JsValue),
     normalize_fields
       (JObj (<["meeting_metrics" :=
                  JObj (<["total_decisions" := d]>
                          (<["total_action_items" := a]> metrics))]> fields))
     = normalize_fields (JObj (<["meeting_metrics" := JObj metrics]> fields))).
Proof.
  cbn zeta. unfold normalize. cbn [summary].
  split; [|split].
  - now destruct (parse raw).
  - now destruct (parse raw).
  - apply normalize_fields_ignores_counts.
Qed.

(** C5: when the payload does not parse, the Normalizer still returns a
    result of the target shape: [summary.summary] is the raw text, every list
    is empty and both totals are zero. *)
Theorem unparseable_payload_fallback (transcript_text raw : string)
    (Hraw : parse raw = None) :
  let r := normalize parse transcript_text raw in
  let s := summary r in
  Summary.summary s = raw /\
  Summary.keyDecisions s = [] /\
  Summary.actionItems s = [] /\
  Summary.nextSteps s = [] /\
  keyTopics (Summary.meetingMetrics s) = [] /\
  totalDecisions (Summary.meetingMetrics s) = 0%nat /\
  totalActionItems (Summary.meetingMetrics s) = 0%nat /\
  transcript r = transcript_text /\
  wordCount r = count_words transcript_text /\
  result_shape (encode_result r) = true.
Proof.
  cbn zeta. unfold normalize. cbn [summary transcript wordCount].
  rewrite Hraw.
  repeat split. apply result_shape_encode.
Qed.

End Claims.

Lemma normalizer_fills_every_field_witness :
  Summary.nextSteps
    (summary (normalize Json.parse "We decided to launch Friday."
       (Json.text "{'summary': 'Launch plan', 'key_decisions': ['Launch Friday']}")))
  = [].
Proof.
  refine (proj1 (proj2 (proj2 (proj2
            (normalizer_fills_every_field Json.parse _ _))) _ _) _).
  - vm_compute. reflexivity.
  - vm_compute. reflexivity.
Defined.

Lemma unparseable_payload_fallback_witness :
  Summary.summary
    (summary (normalize Json.parse "We decided to launch Friday."
                        "Sorry, I could not summarise this meeting."))
  = "Sorry, I could not summarise this meeting.".
Proof.
  apply (unparseable_payload_fallback Json.parse).
  vm_compute. reflexivity.
Defined.

End NormalizerFacts.

(* ===================================================================== *)
(** ** Properties of the upload endpoint *)
(* ===================================================================== *)

Module ServiceFacts.
Import Js Backend NormalizerFacts Samples.

(** Whatever the body does, the staged file is gone when the scope ends. *)
Lemma with_staged_file_releases {A} (path : string) (u : Upload)
    (body : Server -> A * Server) (sv : Server) :
  uploads (snd (with_staged_file path u body sv)) !! path = None.
Proof.
  unfold with_staged_file. destruct (body (stage path u sv)) as [a sv'].
  apply lookup_delete_eq.
Qed.

(** Inside the scope the staged file is there. *)
Lemma stage_lookup (path : string) (u : Upload) (sv : Server) :
  uploads (stage path u sv) !! path = Some u.
Proof. apply lookup_insert_eq. Qed.

Section Service.
Variable parse : string -> option JsValue.
Variable sanitize : string -> string.
Variable describe : Failure -> string.
Variable transcribe : Upload -> option string.
Variable summarise : string -> option string.

Local Abbreviation run_upload :=
  (run_upload parse sanitize transcribe summarise).
Local Abbreviation handle_upload :=
  (handle_upload parse sanitize describe transcribe summarise).

Lemma process_uploads (u : Upload) (sv : Server) :
  uploads (snd (process parse transcribe summarise u sv)) = uploads sv.
Proof.
  unfold process. destruct (transcribe u) as [text|]; [|reflexivity].
  now destruct (summarise text).
Qed.

Lemma handle_upload_server (path : string) (req : option Upload) (sv : Server) :
  snd (handle_upload path req sv) = snd (run_upload path req sv) /\
  fst (handle_upload path req sv)
  = respond describe (fst (run_upload path req sv)).
Proof.
  unfold Backend.handle_upload. now destruct (run_upload path req sv).
Qed.

(** C6: once the request is answered the staged file is gone, whichever way
    the request went (result, provider failure, rejection); with a staging
    name of its own the request leaves the upload directory as it found
    it. *)
Theorem staged_file_released (path : string) (req : option Upload)
    (sv : Server) :
  let after := snd (handle_upload path req sv) in
  (forall name size, validate sanitize req = Accepted name size ->
     uploads after !! path = None) /\
  (uploads sv !! path = None -> uploads after = uploads sv).
Proof.
  cbn zeta. destruct (handle_upload_server path req sv) as [-> _].
  unfold Backend.run_upload. split.
  - intros name size Hacc. rewrite Hacc.
    destruct req as [u|]; [|discriminate Hacc].
    apply with_staged_file_releases.
  - intros Hfresh.
    destruct (validate sanitize req) as [name size|reason]; [|reflexivity].
    destruct req as [u|]; [|reflexivity].
    unfold with_staged_file.
    pose proof (process_uploads u (stage path u sv)) as Hkeep.
    destruct (process parse transcribe summarise u (stage path u sv))
      as [outcome sv'].
    cbn [snd release uploads] in *. rewrite Hkeep. cbn [stage uploads].
    now apply delete_insert_id.
Qed.

(** C9: the endpoint always answers with status 200; a handled failure is a
    body with [success] false and the failure's message as [error]; and the
    client, given any 200 body with [success] false, shows the body's error
    (or 'Processing failed' when that is empty or missing) and no result. *)
Theorem failure_flagged_in_body (path : string) (req : option Upload)
    (sv : Server) (w : App.World) (held : App.File)
    (Hheld : App.file (App.ui w) = Some held) :
  let resp := fst (handle_upload path req sv) in
  status resp = 200 /\
  (forall f, fst (run_upload path req sv) = inl f ->
     get_prop (data resp) "success" = Some (JBool false) /\
     get_prop (data resp) "error" = Some (JStr (describe f)) /\
     (describe f <> EmptyString ->
      let w' := snd (App.handleUpload (App.axios_settle (Some resp)) w) in
      App.error (App.ui w') = JStr (describe f) /\
      App.shows_error (App.ui w') = true /\
      App.result (App.ui w') = JNull /\
      App.shows_result (App.ui w') = false)) /\
  (forall body e,
     get_prop body "success" = Some (JBool false) ->
     get_prop body "error" = Some e ->
     let w' := snd (App.handleUpload
                      (App.axios_settle (Some {| status := 200; data := body |}))
                      w) in
     App.error (App.ui w') = or_else e (JStr App.msg_processing_failed) /\
     App.shows_error (App.ui w') = true /\
     App.result (App.ui w') = JNull /\
     App.shows_result (App.ui w') = false /\
     App.loading (App.ui w') = false).
Proof.
  cbn zeta. destruct (handle_upload_server path req sv) as [_ ->].
  assert (Hclient : forall body e,
     get_prop body "success" = Some (JBool false) ->
     get_prop body "error" = Some e ->
     let w' := snd (App.handleUpload
                      (App.axios_settle (Some {| status := 200; data := body |}))
                      w) in
     App.error (App.ui w') = or_else e (JStr App.msg_processing_failed) /\
     App.shows_error (App.ui w') = true /\
     App.result (App.ui w') = JNull /\
     App.shows_result (App.ui w') = false /\
     App.loading (App.ui w') = false).
  { intros body e Hs He. cbn zeta.
    rewrite (AppFacts.handleUpload_failure_body w held 200 body (JBool false) e)
      by (trivial; lia).
    cbn [App.ui App.error App.result App.loading].
    repeat split. unfold App.shows_error. cbn [App.error].
    unfold or_else. now destruct (truthy e) eqn:E. }
  split; [|split].
  - now destruct (fst (run_upload path req sv)).
  - intros f ->. cbn [respond].
    assert (Hs : get_prop (data (failure_response describe f)) "success"
                 = Some (JBool false)).
    { unfold failure_response, get_prop, obj. cbn [data list_to_map foldr].
      now rewrite lookup_insert_eq. }
    assert (He : get_prop (data (failure_response describe f)) "error"
                 = Some (JStr (describe f))).
    { unfold failure_response, get_prop, obj. cbn [data list_to_map foldr].
      rewrite lookup_insert_ne by discriminate. now rewrite lookup_insert_eq. }
    split; [exact Hs|]. split; [exact He|].
    intros Hmsg.
    destruct (Hclient _ _ Hs He) as (Herr & Hshow & Hres & Hnone & _).
    change (failure_response describe f)
      with {| status := 200; data := data (failure_response describe f) |}.
    rewrite Herr. repeat split; trivial.
    unfold or_else, truthy.
    destruct (String.eqb (describe f) EmptyString) eqn:E; [|reflexivity].
    apply String.eqb_eq in E. contradiction.
  - exact Hclient.
Qed.

(** A rejected request reaches neither provider and stages nothing. *)
Lemma rejected_calls_nothing (path : string) (req : option Upload)
    (sv : Server) (reason : RejectReason) :
  validate sanitize req = Rejected reason ->
  run_upload path req sv = (inl (ValidationError reason), sv).
Proof. intros H. unfold Backend.run_upload. now rewrite H. Qed.

End Service.

Lemma staged_file_released_witness :
  uploads (snd (handle_upload Json.parse id failure_text unavailable unavailable
                  "uploads/req-0001.mp3" (Some meeting_mp3) idle))
    !! "uploads/req-0001.mp3" = None.
Proof.
  refine (proj1 (staged_file_released Json.parse id failure_text unavailable
                   unavailable "uploads/req-0001.mp3" (Some meeting_mp3) idle)
                "meeting.mp3" (10 * 1024 * 1024) _).
  reflexivity.
Defined.

Lemma failure_flagged_in_body_witness :
  let held := {| App.name := "meeting.mp3"; App.size := 10 * 1024 * 1024 |} in
  let w := snd (App.handleFileChange [held] App.start) in
  let resp := fst (handle_upload Json.parse id failure_text unavailable
                     unavailable "uploads/req-0001.mp3" (Some meeting_mp3)
                     idle) in
  App.error (App.ui (snd (App.handleUpload (App.axios_settle (Some resp)) w)))
  = JStr "Could not transcribe the audio".
Proof.
  cbn zeta.
  refine (proj1 (proj2 (proj2 (proj1 (proj2
    (failure_flagged_in_body Json.parse id failure_text unavailable unavailable
       "uploads/req-0001.mp3" (Some meeting_mp3) idle
       (snd (App.handleFileChange
               [{| App.name := "meeting.mp3"; App.size := 10 * 1024 * 1024 |}]
               App.start))
       {| App.name := "meeting.mp3"; App.size := 10 * 1024 * 1024 |}
       eq_refl))
    UpstreamTranscriptionError eq_refl)) _)).
  discriminate.
Defined.

(** The end-to-end scenario: [meeting.mp3] of 10 MB, a five-word transcript,
    one decision and one action item. *)
Example end_to_end_scenario :
  let resp :=
    fst (handle_upload Json.parse id failure_text
           (say "We decided to launch Friday.")
           (answer (Json.text
              "{'summary': 'Launch is set.', 'key_decisions': ['Launch Friday'], 'action_items': [{'task': 'Ship', 'owner': 'Ana', 'deadline': 'Friday', 'priority': 'High'}], 'next_steps': ['Announce'], 'meeting_metrics': {'total_decisions': 4, 'total_action_items': 9, 'key_topics': ['launch']}}"))
           "uploads/req-0002.mp3" (Some meeting_mp3) idle) in
  status resp = 200 /\
  field (data resp) "success" = Some (JBool true) /\
  field (data resp) "word_count" = Some (JNum 5) /\
  (field (data resp) "summary" ≫= fun s =>
   field s "meeting_metrics" ≫= fun m => field m "total_decisions")
  = Some (JNum 1).
Proof. vm_compute. repeat split. Qed.

End ServiceFacts.

(* ===================================================================== *)
(** ** The paths through [handleUpload] *)
(* ===================================================================== *)

Module UploadFacts.
Import Js JsFacts App AppFacts Await.

Lemma settle_2xx (code : Z) (body : JsValue) :
  200 <= code < 300 ->
  axios_settle (Some {| status := code; data := body |})
  = Fulfilled {| status := code; data := body |}.
Proof.
  intros Hcode. unfold axios_settle. cbn [status].
  replace ((code =? 0) || ((200 <=? code) && (code <? 300))) with true;
    [reflexivity|].
  symmetry. apply orb_true_iff. right.
  apply andb_true_iff. split; [apply Z.leb_le | apply Z.ltb_lt]; lia.
Qed.

(** A response without a status (status 0) fulfils the promise too. *)
Lemma settle_status_0 (body : JsValue) :
  axios_settle (Some {| status := 0; data := body |})
  = Fulfilled {| status := 0; data := body |}.
Proof. reflexivity. Qed.

Lemma settle_not_2xx (code : Z) (body : JsValue) :
  code <> 0 -> ~ (200 <= code < 300) ->
  axios_settle (Some {| status := code; data := body |})
  = Failed (AxiosError (Some {| status := code; data := body |})).
Proof.
  intros Hnz Hcode. unfold axios_settle. cbn [status].
  destruct (Z.eqb_spec code 0); [contradiction|].
  destruct (Z.leb_spec 200 code); destruct (Z.ltb_spec code 300);
    cbn [andb orb]; try reflexivity. lia.
Qed.

(** [a || 'message'] is never falsy. *)
Lemma or_else_truthy (a b : JsValue) :
  truthy b = true -> truthy (or_else a b) = true.
Proof. intros Hb. unfold or_else. now destruct (truthy a) eqn:E. Qed.

(** Only an object has a truthy [success]. *)
Lemma truthy_success_object (body s : JsValue) :
  get_prop body "success" = Some s -> truthy s = true -> truthy body = true.
Proof.
  destruct body; cbn; try discriminate; try (intros [= <-]; discriminate).
  reflexivity.
Qed.

(** A rejected promise, or a throw in the [try] block, ends in the [catch]
    block. *)
Lemma handleUpload_caught (w : World) (held : File) (err : Thrown) :
  file (ui w) = Some held ->
  snd (handleUpload (Failed err) w)
  = {| ui := {| file := Some held; loading := false; result := JNull;
                error := or_else (error_of_thrown err)
                                 (JStr msg_error_occurred) |};
       sent := (sent w ++ [upload_request held])%list |}.
Proof. intros Hf. run_handler. rewrite Hf. run_handler. now rewrite Hf. Qed.

Lemma handleUpload_fulfilled_throw (w : World) (held : File)
    (response : Response) :
  file (ui w) = Some held ->
  get_prop (data response) "success" = None ->
  snd (handleUpload (Fulfilled response) w)
  = {| ui := {| file := Some held; loading := false; result := JNull;
                error := JStr msg_error_occurred |};
       sent := (sent w ++ [upload_request held])%list |}.
Proof.
  intros Hf Hs. run_handler. rewrite Hf. run_handler. rewrite Hs.
  run_handler. now rewrite Hf.
Qed.

Lemma handleUpload_fulfilled_success (w : World) (held : File)
    (response : Response) (s : JsValue) :
  file (ui w) = Some held ->
  get_prop (data response) "success" = Some s -> truthy s = true ->
  snd (handleUpload (Fulfilled response) w)
  = {| ui := {| file := Some held; loading := false;
                result := data response; error := JStr EmptyString |};
       sent := (sent w ++ [upload_request held])%list |}.
Proof.
  intros Hf Hs Ht. run_handler. rewrite Hf. run_handler. rewrite Hs, Ht.
  run_handler. now rewrite Hf.
Qed.

Lemma handleUpload_fulfilled_failure (w : World) (held : File)
    (response : Response) (s : JsValue) :
  file (ui w) = Some held ->
  get_prop (data response) "success" = Some s -> truthy s = false ->
  snd (handleUpload (Fulfilled response) w)
  = {| ui := {| file := Some held; loading := false; result := JNull;
                error := or_else (get_prop_opt (data response) "error")
                                 (JStr msg_processing_failed) |};
       sent := (sent w ++ [upload_request held])%list |}.
Proof.
  intros Hf Hs Ht. run_handler. rewrite Hf. run_handler. rewrite Hs, Ht.
  unfold get_prop_opt.
  destruct (get_prop (data response) "error") as [e|] eqn:He.
  - run_handler. now rewrite Hf.
  - destruct (data response); discriminate.
Qed.



(** X2: when the promise of [axios.post] is rejected, the [catch] block
    shows [err.response.data.error] if that is truthy and the generic message
    otherwise, and no result: for a response whose status is neither 0 nor
    2xx, and for no response at all (network failure, timeout).  (axios
    fulfils the promise on a status of 0 as on 2xx.) *)
Theorem upload_rejection_caught (w : World) (held : File)
    (Hheld : file (ui w) = Some held) :
  (forall code body, code <> 0 -> ~ (200 <= code < 300) ->
     let w' := snd (handleUpload
                      (axios_settle (Some {| status := code; data := body |}))
                      w) in
     error (ui w') = or_else (get_prop_opt body "error")
                             (JStr "An error occurred during processing") /\
     result (ui w') = JNull /\ loading (ui w') = false) /\
  (let w' := snd (handleUpload (axios_settle None) w) in
   error (ui w') = JStr "An error occurred during processing" /\
   result (ui w') = JNull /\ loading (ui w') = false) /\
  (forall body,
     handleUpload (axios_settle (Some {| status := 0; data := body |})) w
     = handleUpload (Fulfilled {| status := 0; data := body |}) w).
Proof.
  split; [|split].
  - intros code body Hnz Hcode. cbn zeta.
    rewrite settle_not_2xx by assumption.
    now rewrite (handleUpload_caught w held) by exact Hheld.
  - cbn zeta. cbn [axios_settle].
    now rewrite (handleUpload_caught w held) by exact Hheld.
  - intros body. now rewrite settle_status_0.
Qed.

Lemma upload_rejection_caught_witness :
  error (ui (snd (handleUpload
    (axios_settle (Some {| status := 413;
                           data := JObj {["error" := JStr "Payload too large"]} |}))
    (snd (handleFileChange [{| name := "retro.m4a"; size := 4096 |}] start)))))
  = JStr "Payload too large".
Proof.
  refine (proj1 (proj1 (upload_rejection_caught
    (snd (handleFileChange [{| name := "retro.m4a"; size := 4096 |}] start))
    {| name := "retro.m4a"; size := 4096 |} eq_refl)
    413 (JObj {["error" := JStr "Payload too large"]}) _ _)).
  - lia.
  - lia.
Defined.

(** X3: a 2xx response whose body is [null] or [undefined] makes
    [response.data.success] throw inside the [try] block; the [catch] block
    then shows the generic message, and no result. *)
Theorem upload_empty_body_caught (w : World) (held : File) (code : Z)
    (body : JsValue)
    (Hheld : file (ui w) = Some held)
    (Hcode : 200 <= code < 300)
    (Hbody : Render.nullish body = true) :
  let w' := snd (handleUpload
                   (axios_settle (Some {| status := code; data := body |})) w) in
  error (ui w') = JStr "An error occurred during processing" /\
  result (ui w') = JNull /\ loading (ui w') = false /\
  sent w' = (sent w ++ [upload_request held])%list.
Proof.
  cbn zeta. rewrite settle_2xx by exact Hcode.
  rewrite (handleUpload_fulfilled_throw w held) by
    (trivial; destruct body; try discriminate Hbody; reflexivity).
  easy.
Qed.

Lemma upload_empty_body_caught_witness :
  error (ui (snd (handleUpload
    (axios_settle (Some {| status := 204; data := JNull |}))
    (snd (handleFileChange [{| name := "retro.m4a"; size := 4096 |}] start)))))
  = JStr "An error occurred during processing".
Proof.
  refine (proj1 (upload_empty_body_caught
    (snd (handleFileChange [{| name := "retro.m4a"; size := 4096 |}] start))
    {| name := "retro.m4a"; size := 4096 |} 204 JNull eq_refl _ eq_refl)).
  lia.
Defined.

Ltac run_phase :=
  unfold upload_begin, upload_settle, post_request; run_handler.

Lemma upload_begin_held (w : World) (f : File) :
  file (ui w) = Some f ->
  upload_begin w =
  (true, {| ui := {| file := Some f; loading := true; result := JNull;
                     error := JStr EmptyString |};
            sent := (sent w ++ [upload_request f])%list |}).
Proof. intros Hf. run_phase. rewrite Hf. run_phase. now rewrite Hf. Qed.

(** With a file held, [handleUpload] is its two parts one after the other;
    with none, it is its first part and no request is pending. *)
Lemma handleUpload_phases (reply : Settled) (w : World) (f : File) :
  file (ui w) = Some f ->
  snd (handleUpload reply w) = snd (upload_settle reply (snd (upload_begin w))).
Proof.
  intros Hf. rewrite (upload_begin_held w f Hf). cbn [snd].
  destruct reply as [response|err].
  - destruct (get_prop (data response) "success") as [s|] eqn:Hs.
    + destruct (truthy s) eqn:Ht.
      * rewrite (handleUpload_fulfilled_success w f response s) by assumption.
        run_phase. rewrite Hs, Ht. now run_handler.
      * rewrite (handleUpload_fulfilled_failure w f response s) by assumption.
        run_phase. rewrite Hs, Ht. unfold get_prop_opt.
        destruct (get_prop (data response) "error") as [e|] eqn:He;
          [now run_handler|].
        destruct (data response); discriminate.
    + rewrite (handleUpload_fulfilled_throw w f response) by assumption.
      run_phase. rewrite Hs. now run_handler.
  - rewrite (handleUpload_caught w f) by exact Hf. now run_phase.
Qed.

Lemma handleUpload_not_begun (reply : Settled) (w : World) :
  file (ui w) = None ->
  snd (handleUpload reply w) = snd (upload_begin w) /\
  fst (upload_begin w) = false.
Proof. intros Hf. run_phase. now rewrite Hf. Qed.

(** Whatever the state it resumes in, the second part leaves the guard of
    the results section or that of the error box true, and the spinner off;
    it writes neither the held file nor the request log. *)
Lemma upload_settle_guard (reply : Settled) (w : World) :
  let w' := snd (upload_settle reply w) in
  truthy (result (ui w')) || truthy (error (ui w')) = true /\
  loading (ui w') = false /\
  file (ui w') = file (ui w) /\ sent w' = sent w.
Proof.
  cbn zeta. run_phase. destruct reply as [response|err].
  - run_handler.
    destruct (get_prop (data response) "success") as [s|] eqn:Hs.
    + destruct (truthy s) eqn:Ht.
      * run_handler. rewrite (truthy_success_object _ _ Hs Ht). easy.
      * destruct (get_prop (data response) "error") as [e|]; run_handler;
          rewrite or_else_truthy by reflexivity;
          now rewrite orb_true_r.
    + run_handler. rewrite or_else_truthy by reflexivity.
      now rewrite orb_true_r.
  - run_handler. rewrite or_else_truthy by reflexivity.
    now rewrite orb_true_r.
Qed.

(** X4: however the request settles, and whatever files are chosen in the
    file input while it is pending, an upload with a file held ends with
    the spinner off and with the guard [result &&] of the results section or
    the guard [error &&] of the error box true, never with neither.  When
    nothing happens during the [await] the two parts are [handleUpload] and
    exactly one of the two guards is true. *)
Theorem upload_ends_in_result_or_error (reply : Settled) (w : World)
    (held : File) (changes : list (list File))
    (Hheld : file (ui w) = Some held) :
  let pending := snd (upload_begin w) in
  let u := ui (snd (upload_settle reply (changes_during changes pending))) in
  truthy (result u) || truthy (error u) = true /\
  loading u = false /\
  (changes = [] ->
   snd (upload_settle reply pending) = snd (handleUpload reply w) /\
   truthy (result u) = negb (truthy (error u))).
Proof.
  cbn zeta.
  destruct (upload_settle_guard reply
              (changes_during changes (snd (upload_begin w))))
    as (Hguard & Hloading & _).
  split; [exact Hguard|]. split; [exact Hloading|].
  intros ->. unfold changes_during. cbn [fmap list_fmap run fold_left].
  rewrite <- (handleUpload_phases reply w held Hheld).
  split; [reflexivity|].
  destruct reply as [response|err].
  - destruct (get_prop (data response) "success") as [s|] eqn:Hs.
    + destruct (truthy s) eqn:Ht.
      * rewrite (handleUpload_fulfilled_success w held response s)
          by assumption.
        cbn [ui result error].
        now rewrite (truthy_success_object _ _ Hs Ht).
      * rewrite (handleUpload_fulfilled_failure w held response s)
          by assumption.
        cbn [ui result error]. now rewrite or_else_truthy.
    + now rewrite (handleUpload_fulfilled_throw w held response) by assumption.
  - rewrite (handleUpload_caught w held) by exact Hheld.
    cbn [ui result error]. now rewrite or_else_truthy.
Qed.

Lemma upload_ends_in_result_or_error_witness :
  let w := snd (handleFileChange [{| name := "retro.m4a"; size := 4096 |}]
                                 start) in
  let u := ui (snd (upload_settle (Failed TypeError)
             (changes_during [[{| name := "notes.txt"; size := 1 |}]]
                             (snd (upload_begin w))))) in
  let u' := ui (snd (upload_settle (Failed TypeError)
              (changes_during [] (snd (upload_begin w))))) in
  truthy (result u) || truthy (error u) = true /\
  truthy (result u') = negb (truthy (error u')).
Proof.
  split.
  - exact (proj1 (upload_ends_in_result_or_error (Failed TypeError)
      (snd (handleFileChange [{| name := "retro.m4a"; size := 4096 |}] start))
      {| name := "retro.m4a"; size := 4096 |}
      [[{| name := "notes.txt"; size := 1 |}]] eq_refl)).
  - exact (proj2 (proj2 (proj2 (upload_ends_in_result_or_error
      (Failed TypeError)
      (snd (handleFileChange [{| name := "retro.m4a"; size := 4096 |}] start))
      {| name := "retro.m4a"; size := 4096 |} [] eq_refl)) eq_refl)).
Defined.

(** A file refused while the request is pending leaves its message up, and
    a success that follows puts the result beside it. *)
Example both_guards_after_refused_change :
  let w := snd (handleFileChange [{| name := "retro.m4a"; size := 4096 |}]
                                 start) in
  let u := ui (snd (upload_settle
             (Fulfilled {| status := 200;
                           data := JObj {["success" := JBool true]} |})
             (changes_during [[{| name := "notes.txt"; size := 1 |}]]
                             (snd (upload_begin w))))) in
  truthy (result u) = true /\ truthy (error u) = true /\ file u = None.
Proof. vm_compute. repeat split. Qed.

(** X5: changing the file input never touches the result, the spinner or
    the request log, and an upload never changes the held file: a result
    already on the page stays there when another file is chosen, and the
    same file can be sent again. *)
Theorem handlers_leave_alone :
  (forall files w,
     let w' := snd (handleFileChange files w) in
     result (ui w') = result (ui w) /\ loading (ui w') = loading (ui w) /\
     sent w' = sent w) /\
  (forall reply w,
     file (ui (snd (handleUpload reply w))) = file (ui w)).
Proof.
  split.
  - intros [|f rest] w; cbn zeta; [easy|].
    destruct (extension_ok f) eqn:Hext.
    + destruct (Z.gtb_spec (size f) max_size).
      * now rewrite handleFileChange_too_large by (trivial; lia).
      * now rewrite handleFileChange_selected.
    + now rewrite handleFileChange_unsupported.
  - intros reply w. destruct (file (ui w)) as [f|] eqn:Hf.
    + now destruct (handleUpload_sends reply w f Hf) as (_ & -> & _).
    + now rewrite handleUpload_no_file.
Qed.

End UploadFacts.

(* ===================================================================== *)
(** ** Whole sessions *)
(* ===================================================================== *)

Module SessionFacts.
Import Js JsFacts App AppFacts UploadFacts Session.

Lemma run_snoc (es : list Event) (e : Event) (w : World) :
  run (es ++ [e]) w = step (run es w) e.
Proof. unfold run. now rewrite fold_left_app. Qed.

(** The held file after a change of the input. *)
Lemma handleFileChange_file (files : list File) (w : World) :
  file (ui (snd (handleFileChange files w))) =
  match files !! 0%nat with
  | Some f => if passes_checks f then Some f else None
  | None => file (ui w)
  end.
Proof.
  destruct files as [|f rest]; [reflexivity|]. cbn [lookup list_lookup].
  unfold passes_checks. destruct (extension_ok f) eqn:Hext.
  - destruct (Z.gtb_spec (size f) max_size).
    + now rewrite handleFileChange_too_large by (trivial; lia).
    + now rewrite handleFileChange_selected.
  - now rewrite handleFileChange_unsupported.
Qed.

Lemma handleFileChange_result (files : list File) (w : World) :
  result (ui (snd (handleFileChange files w))) = result (ui w).
Proof.
  destruct files as [|f rest]; [reflexivity|].
  destruct (extension_ok f) eqn:Hext.
  - destruct (Z.gtb_spec (size f) max_size).
    + now rewrite handleFileChange_too_large by (trivial; lia).
    + now rewrite handleFileChange_selected.
  - now rewrite handleFileChange_unsupported.
Qed.

Lemma handleUpload_file (reply : Settled) (w : World) :
  file (ui (snd (handleUpload reply w))) = file (ui w).
Proof.
  destruct (file (ui w)) as [f|] eqn:Hf.
  - now destruct (handleUpload_sends reply w f Hf) as (_ & -> & _).
  - now rewrite handleUpload_no_file.
Qed.

(** What an upload adds to the request log. *)
Lemma handleUpload_sent (reply : Settled) (w : World) :
  sent (snd (handleUpload reply w)) =
  (sent w ++ match file (ui w) with
             | Some f => [upload_request f]
             | None => []
             end)%list.
Proof.
  destruct (file (ui w)) as [f|] eqn:Hf.
  - now destruct (handleUpload_sends reply w f Hf) as (-> & _).
  - rewrite handleUpload_no_file by exact Hf. cbn [sent].
    now rewrite app_nil_r.
Qed.

Lemma handleFileChange_log (files : list File) (w : World) :
  sent (snd (handleFileChange files w)) = sent w.
Proof.
  destruct files as [|f rest]; [reflexivity|].
  destruct (extension_ok f) eqn:Hext.
  - destruct (Z.gtb_spec (size f) max_size).
    + now rewrite handleFileChange_too_large by (trivial; lia).
    + now rewrite handleFileChange_selected.
  - now rewrite handleFileChange_unsupported.
Qed.

Lemma step_same_action (e e' : Event) (w w' : World) :
  same_action e e' ->
  file (ui w) = file (ui w') -> sent w = sent w' ->
  file (ui (step w e)) = file (ui (step w' e')) /\
  sent (step w e) = sent (step w' e').
Proof.
  intros Hact Hfile Hsent. unfold step.
  destruct e as [files|reply], e' as [files'|reply']; cbn in Hact;
    try contradiction; cbn [handle].
  - subst files'. rewrite !handleFileChange_file, !handleFileChange_log.
    now rewrite Hfile, Hsent.
  - rewrite !handleUpload_file, !handleUpload_sent.
    now rewrite Hfile, Hsent.
Qed.

Lemma run_same_actions (es es' : list Event) (w w' : World) :
  Forall2 same_action es es' ->
  file (ui w) = file (ui w') -> sent w = sent w' ->
  file (ui (run es w)) = file (ui (run es' w')) /\
  sent (run es w) = sent (run es' w').
Proof.
  intros Hes. revert w w'.
  induction Hes as [|e e' es es' Hact _ IH]; intros w w' Hfile Hsent.
  - now split.
  - cbn [run fold_left].
    destruct (step_same_action e e' w w' Hact Hfile Hsent) as [Hf Hs].
    now apply IH.
Qed.

(** X6: what the server answers never changes what the client sends or
    holds: two sessions with the same file choices and the same presses on
    the button, under any two sequences of replies, send the same requests
    and end holding the same file. *)
Theorem replies_do_not_steer (es es' : list Event) (w : World)
    (Hsame : Forall2 same_action es es') :
  sent (run es w) = sent (run es' w) /\
  file (ui (run es w)) = file (ui (run es' w)).
Proof.
  destruct (run_same_actions es es' w w Hsame eq_refl eq_refl) as [Hf Hs].
  now split.
Qed.

Lemma replies_do_not_steer_witness :
  let pick := FileChange [{| name := "sync.wav"; size := 2048 |}] in
  sent (run [pick; Upload (Failed (AxiosError None))] start)
  = sent (run [pick; Upload (Fulfilled {| status := 200; data := JNull |})]
              start).
Proof.
  refine (proj1 (replies_do_not_steer _ _ start _)).
  repeat constructor.
Defined.

(** X7: the file held after a session is decided by the last change of the
    input that picked a file: that file if it passed both checks, and none
    otherwise.  Presses on the button and the replies to them do not enter,
    and a change that picks nothing (a cancelled dialog) keeps what was
    held. *)
Theorem held_file_is_last_pick (es : list Event) :
  file (ui (run es start)) =
  match last_pick es with
  | Some f => if extension_ok f && (size f <=? 25 * 1024 * 1024)
              then Some f else None
  | None => None
  end.
Proof.
  induction es as [|e es IH] using rev_ind; [reflexivity|].
  rewrite run_snoc. unfold last_pick in *. rewrite omap_app.
  unfold step. destruct e as [files|reply]; cbn [handle omap list_omap picked].
  - rewrite handleFileChange_file.
    destruct (files !! 0%nat) as [f|] eqn:Hf.
    + rewrite last_snoc. unfold passes_checks, max_size.
      now rewrite Z.gtb_ltb, <- Z.leb_antisym.
    + now rewrite app_nil_r.
  - rewrite handleUpload_file. now rewrite app_nil_r.
Qed.

(** X8: no press on the button sends more than one request, whatever the
    reply, and nothing else sends any: the number of requests sent in a
    session is at most the number of presses. *)
Theorem at_most_one_request_per_press (es : list Event) (w : World) :
  (length (sent (run es w)) <= length (sent w) + presses es)%nat.
Proof.
  revert w. induction es as [|e es IH]; intros w.
  - cbn. lia.
  - cbn [run fold_left]. specialize (IH (step w e)).
    unfold run in IH. etransitivity; [exact IH|].
    unfold presses, step.
    destruct e as [files|reply]; cbn [handle].
    + rewrite handleFileChange_log. rewrite filter_cons_False by (cbn; tauto).
      lia.
    + rewrite handleUpload_sent, length_app.
      rewrite filter_cons_True by (cbn; tauto). cbn [length].
      destruct (file (ui w)); cbn [length]; lia.
Qed.

End SessionFacts.

(* ===================================================================== *)
(** ** The extension test as a suffix test *)
(* ===================================================================== *)

Module ExtensionFacts.
Import Js JsFacts App AppFacts.

Lemma string_drop_suffix (n : nat) (s : string) :
  exists pre, s = pre +:+ string_drop n s.
Proof.
  revert s. induction n as [|n IH]; intros s.
  - exists EmptyString. now rewrite string_drop_0.
  - destruct s as [|c s]; [now exists EmptyString|].
    destruct (IH s) as [pre Hpre]. exists (String c pre).
    cbn [string_drop]. change (String c pre +:+ string_drop n s)
      with (String c (pre +:+ string_drop n s)). now rewrite <- Hpre.
Qed.

(** [substring] always returns the end of the string. *)
Lemma substring_suffix (start : Z) (s : string) :
  exists pre, s = pre +:+ substring start s.
Proof. apply string_drop_suffix. Qed.

Lemma after_last_dot_app (base e : string) :
  has_dot e = false ->
  Backend.after_last_dot (base +:+ String "." e) = Some e.
Proof.
  intros He. apply after_last_dot_none in He.
  induction base as [|c base IH].
  - change (EmptyString +:+ String "." e) with (String "." e).
    cbn [Backend.after_last_dot]. now rewrite He.
  - change (String c base +:+ String "." e)
      with (String c (base +:+ String "." e)).
    cbn [Backend.after_last_dot]. now rewrite IH.
Qed.

(** X9: the test [substring(lastIndexOf('.'))] against the list is a suffix
    test: a file passes the extension check exactly when its lowercased name
    ends with [.mp3], [.wav], [.m4a] or [.flac].  Only the end of the name
    counts: [a.txt.mp3] passes, [a.mp3.txt] and [a.mp3 ] do not. *)
Theorem extension_ok_iff_suffix (f : File) :
  extension_ok f = true <->
  exists base ext,
    In ext [".mp3"; ".wav"; ".m4a"; ".flac"] /\
    toLowerCase (name f) = base +:+ ext.
Proof.
  split.
  - intros Hok. unfold extension_ok in Hok. apply includes_true in Hok.
    destruct (substring_suffix (lastIndexOf "." (toLowerCase (name f)))
                               (toLowerCase (name f))) as [pre Hpre].
    exists pre, (fileExtension f). split; [exact Hok | exact Hpre].
  - intros (base & ext & Hin & Hname).
    unfold extension_ok, fileExtension. rewrite Hname.
    rewrite substring_lastIndexOf. apply includes_true.
    cbn [In] in Hin.
    destruct Hin as [<-|[<-|[<-|[<-|[]]]]];
      rewrite after_last_dot_app by reflexivity; cbn; tauto.
Qed.

Lemma extension_ok_iff_suffix_witness :
  extension_ok {| name := "Board.Call.TXT.Mp3"; size := 1 |} = true.
Proof.
  apply (proj2 (extension_ok_iff_suffix
                  {| name := "Board.Call.TXT.Mp3"; size := 1 |})).
  exists "board.call.txt", ".mp3". split; [simpl; tauto | reflexivity].
Defined.

End ExtensionFacts.

(* ===================================================================== *)
(** ** What the results section needs of a result *)
(* ===================================================================== *)

Module RenderFacts.
Import Js JsFacts App AppFacts UploadFacts SessionFacts Render Session.

Lemma get_prop_nullish (v : JsValue) (k : string) :
  get_prop v k = if nullish v then None else Some (get_prop_opt v k).
Proof. now destruct v. Qed.

Lemma get_length_nullish (v : JsValue) :
  is_Some (get_length v) <-> nullish v = false.
Proof. destruct v; cbn; split; intros H; try easy; now destruct H. Qed.

Lemma js_map_rows (v : JsValue) :
  is_Some (js_map Some v) <-> is_array v = true.
Proof.
  destruct v; cbn; split; intros H; try easy; try (now destruct H).
  clear H. induction xs as [|x xs [ys IH]]; [now eexists|].
  cbn. cbn in IH. rewrite IH. now eexists.
Qed.

Lemma render_item_nullish (item : JsValue) :
  is_Some (render_item item) <-> nullish item = false.
Proof.
  unfold render_item. rewrite !get_prop_nullish.
  destruct (nullish item); cbn; split; intros H; try easy; now destruct H.
Qed.

Lemma js_map_items (v : JsValue) :
  is_Some (js_map render_item v) <-> is_item_array v = true.
Proof.
  destruct v; cbn; split; intros H; try easy; try (now destruct H).
  - induction xs as [|x xs IH]; [reflexivity|].
    cbn in H. cbn [forallb].
    destruct (render_item x) as [row|] eqn:Hx; cbn in H;
      [|now destruct H].
    assert (Hn : nullish x = false)
      by (apply render_item_nullish; rewrite Hx; now eexists).
    rewrite Hn. cbn [negb andb]. apply IH.
    destruct (mapM render_item xs); cbn in *; [now eexists | now destruct H].
  - induction xs as [|x xs IH]; [now eexists|].
    cbn [forallb] in H. apply andb_true_iff in H as [Hx Hxs].
    apply negb_true_iff, render_item_nullish in Hx. destruct Hx as [row Hx].
    destruct (IH Hxs) as [rows Hrows]. cbn. rewrite Hx. cbn.
    cbn in Hrows. rewrite Hrows. now eexists.
Qed.

(** The reads of the results section succeed exactly on a renderable
    value. *)
Lemma render_results_spec (result : JsValue) :
  is_Some (render_results result) <-> renderable result = true.
Proof.
  unfold render_results, renderable, read.
  rewrite !get_prop_nullish.
  set (summary := get_prop_opt result "summary").
  set (metrics := get_prop_opt summary "meeting_metrics").
  destruct (nullish result); [cbn; split; intros H; [now destruct H | easy]|].
  cbn [mbind option_bind negb andb].
  rewrite !get_prop_nullish. fold metrics.
  destruct (nullish summary);
    [cbn; split; intros H; [now destruct H | easy]|].
  cbn [mbind option_bind negb andb].
  rewrite !get_prop_nullish.
  destruct (nullish metrics);
    [cbn; split; intros H; [now destruct H | easy]|].
  cbn [mbind option_bind negb andb].
  pose proof (get_length_nullish (get_prop_opt metrics "key_topics")) as Hlen.
  pose proof (js_map_rows (get_prop_opt summary "key_decisions")) as Hdec.
  pose proof (js_map_items (get_prop_opt summary "action_items")) as Hitems.
  pose proof (js_map_rows (get_prop_opt summary "next_steps")) as Hsteps.
  destruct (get_length (get_prop_opt metrics "key_topics")) as [n|];
    cbn [mbind option_bind].
  2:{ destruct (nullish (get_prop_opt metrics "key_topics"));
        [|now destruct (proj2 Hlen eq_refl)].
      split; intros H; [now destruct H | discriminate]. }
  rewrite (proj1 Hlen (ex_intro _ n eq_refl)). cbn [negb andb].
  destruct (js_map Some (get_prop_opt summary "key_decisions")) as [ds|];
    cbn [mbind option_bind].
  2:{ destruct (is_array (get_prop_opt summary "key_decisions"));
        [now destruct (proj2 Hdec eq_refl)|].
      split; intros H; [now destruct H | discriminate]. }
  rewrite (proj1 Hdec (ex_intro _ ds eq_refl)). cbn [andb].
  destruct (js_map render_item (get_prop_opt summary "action_items"))
    as [rows|]; cbn [mbind option_bind].
  2:{ destruct (is_item_array (get_prop_opt summary "action_items"));
        [now destruct (proj2 Hitems eq_refl)|].
      split; intros H; [now destruct H | discriminate]. }
  rewrite (proj1 Hitems (ex_intro _ rows eq_refl)). cbn [andb].
  destruct (js_map Some (get_prop_opt summary "next_steps")) as [ss|];
    cbn [mbind option_bind].
  2:{ destruct (is_array (get_prop_opt summary "next_steps"));
        [now destruct (proj2 Hsteps eq_refl)|].
      split; intros H; [now destruct H | discriminate]. }
  rewrite (proj1 Hsteps (ex_intro _ ss eq_refl)).
  split; [reflexivity | intros _; now eexists].
Qed.

Lemma render_section_result (u u' : AppState) :
  result u = result u' -> render_section u = render_section u'.
Proof. unfold render_section. now intros ->. Qed.

(** X10: the results section is evaluated without a [TypeError] exactly when
    the result has a [summary] with a [meeting_metrics] whose [key_topics]
    is neither [null] nor missing, [key_decisions] and [next_steps] are
    arrays, and [action_items] is an array without [null] entries;
    otherwise a [TypeError] aborts the render.  The counts, [word_count],
    [transcript] and [summary.summary] may be missing. *)
Theorem results_section_needs (result : JsValue) :
  (renderable result = true -> exists view, render_results result = Some view)
  /\
  (renderable result = false -> render_results result = None).
Proof.
  split; intros H.
  - now apply render_results_spec.
  - destruct (render_results result) as [view|] eqn:E; [|reflexivity].
    assert (Hr : renderable result = true)
      by (apply render_results_spec; rewrite E; now eexists).
    congruence.
Qed.

Lemma results_section_needs_witness :
  render_results (JObj {["success" := JBool true]}) = None.
Proof.
  apply (proj2 (results_section_needs (JObj {["success" := JBool true]}))).
  vm_compute. reflexivity.
Defined.



Lemma step_renders (w : World) (e : Event) :
  successes_renderable [e] ->
  is_Some (render_section (ui w)) ->
  is_Some (render_section (ui (step w e))).
Proof.
  intros Hok Hw. unfold step. destruct e as [files|reply]; cbn [handle].
  - rewrite (render_section_result _ (ui w)); [exact Hw|].
    apply handleFileChange_result.
  - destruct (file (ui w)) as [f|] eqn:Hf.
    2:{ rewrite handleUpload_no_file by exact Hf.
        now rewrite (render_section_result _ (ui w)). }
    destruct reply as [response|err].
    + destruct (get_prop (data response) "success") as [s|] eqn:Hs.
      * destruct (truthy s) eqn:Ht.
        -- rewrite (handleUpload_fulfilled_success w f response s)
             by assumption.
           unfold render_section. cbn [ui result].
           rewrite (truthy_success_object _ _ Hs Ht).
           assert (Hr : renderable (data response) = true)
             by (apply (Hok response s); [now left | assumption..]).
           apply render_results_spec in Hr as [view ->]. now eexists.
        -- rewrite (handleUpload_fulfilled_failure w f response s)
             by assumption.
           now eexists.
      * rewrite (handleUpload_fulfilled_throw w f response) by assumption.
        now eexists.
    + rewrite (handleUpload_caught w f) by exact Hf. now eexists.
Qed.

Lemma run_renders (es : list Event) (w : World) :
  successes_renderable es ->
  is_Some (render_section (ui w)) ->
  is_Some (render_section (ui (run es w))).
Proof.
  revert w. induction es as [|e es IH]; intros w Hok Hw; [exact Hw|].
  cbn [run fold_left]. apply IH.
  - intros response s Hin. apply Hok. now right.
  - apply step_renders; [|exact Hw].
    intros response s [Hin|[]]. apply Hok. now left.
Qed.

(** X12: as long as every success body the server sends has what the
    results section reads, the render never throws, whatever the user does
    and however the other requests fail: failures leave no result to
    render, and changing the file leaves the result as it is. *)
Theorem session_keeps_rendering (es : list Event)
    (Hok : successes_renderable es) :
  is_Some (render_section (ui (run es start))).
Proof.
  apply run_renders; [exact Hok|]. now eexists.
Qed.

Lemma session_keeps_rendering_witness :
  is_Some (render_section (ui (run
    [FileChange [{| name := "retro.m4a"; size := 4096 |}];
     Upload (Fulfilled {| status := 200; data := Samples.empty_summary_body |});
     FileChange [{| name := "retro.exe"; size := 4096 |}];
     Upload (Failed (AxiosError None))] start))).
Proof.
  apply session_keeps_rendering.
  intros response s [Hin|[Hin|[Hin|[Hin|[]]]]]; try discriminate Hin.
  injection Hin as <-. intros _ _. vm_compute. reflexivity.
Defined.

End RenderFacts.

